(** * The ABE benchmark harness of [samples/main.py]

    A shallow embedding of the resource monitor, the benchmark case, the
    benchmark suite and the report exporter, followed by the properties
    the specification states about them.

    Python's [float] is IEEE 754 binary64; it is modelled by [spec_float]
    with the operations of [SpecFloat] at precision 53 and maximal
    exponent 1024.  Python's [int] is [Z].  Everything the program asks
    of its surroundings (psutil, the clock, the file system, the ABE
    scheme) is answered by an explicit environment, and every effect
    lands in an explicit [World]. *)

From Stdlib Require Import ZArith Lia String Ascii DecimalString DecimalZ.
From Stdlib Require Import SpecFloat.
From stdpp Require Import base list strings.

Open Scope Z_scope.

(* ================================================================= *)
(** * Part I: definitions *)
(* ================================================================= *)

(** ** Python exceptions *)

(** An exception carries its class name and its message; [str(e)] is the
    message.  Only exceptions that [except Exception] catches are
    modelled. *)
Inductive exn : Type :=
| Exception (kind : string) (msg : string).

Definition str_exn (e : exn) : string :=
  match e with Exception _ msg => msg end.

Definition OverflowError (msg : string) : exn := Exception "OverflowError" msg.
Definition ValueError (msg : string) : exn := Exception "ValueError" msg.

(** ** Python floats *)

Definition float : Type := spec_float.

Definition prec : Z := 53.
Definition emax : Z := 1024.

Definition fsub : float -> float -> float := SFsub prec emax.
Definition fmul : float -> float -> float := SFmul prec emax.

(** [x < y] and [x <= y] on floats; both are [false] when an operand is
    NaN. *)
Definition flt : float -> float -> bool := SFltb.
Definition fle : float -> float -> bool := SFleb.

(** [float(z)] for an integer literal of the program. *)
Definition float_of_int (z : Z) : float := binary_normalize prec emax z 0 false.

(** The literals [0], [0.0], [100.0] and [1000].  The integer literal [0]
    of [max(0, x)] is embedded as [+0.0]: the two compare equal to every
    float and are printed alike by the [f] formats, the only ways the
    program looks at the value. *)
Definition f0 : float := S754_zero false.
Definition f100 : float := Eval vm_compute in float_of_int 100.
Definition f1000 : float := Eval vm_compute in float_of_int 1000.

(** [max(a, b)] and [min(a, b)] of two arguments: the builtin keeps its
    first argument unless the second one is strictly greater (smaller). *)
Definition py_max (a b : float) : float := if flt a b then b else a.
Definition py_min (a b : float) : float := if flt b a then b else a.

(** [a / 1024] for an [int] [a].  True division of integers returns the
    correctly rounded quotient; the divisor being [2^10], the quotient is
    [a * 2^-10], rounded to nearest-even by [binary_normalize].  A
    quotient beyond the largest float raises [OverflowError]. *)
Definition int_div_1024 (a : Z) : exn + float :=
  match binary_normalize prec emax a (-10) false with
  | S754_infinity _ =>
      inl (OverflowError "integer division result too large for a float")
  | q => inr q
  end.

(** [int(x)] for a float [x]: truncation towards zero. *)
Definition int_of_float (x : float) : exn + Z :=
  match x with
  | S754_zero _ => inr 0
  | S754_finite s m e =>
      inr (cond_Zopp s (if 0 <=? e then Zpos m * 2 ^ e else Zpos m / 2 ^ (- e)))
  | S754_infinity _ => inl (OverflowError "cannot convert float infinity to integer")
  | S754_nan => inl (ValueError "cannot convert float NaN to integer")
  end.

(** [x == z] for a float [x] and an [int] [z]: Python compares the exact
    values. *)
Definition float_eq_int (x : float) (z : Z) : bool :=
  match x with
  | S754_zero _ => z =? 0
  | S754_finite s m e =>
      if 0 <=? e then cond_Zopp s (Zpos m * 2 ^ e) =? z
      else cond_Zopp s (Zpos m) =? z * 2 ^ (- e)
  | S754_infinity _ | S754_nan => false
  end.

(** ** Python strings *)

(** [str(z)] and [int(s)] for decimal integers. *)
Definition py_str (z : Z) : string := NilZero.string_of_int (Z.to_int z).

Definition py_int (s : string) : exn + Z :=
  match NilZero.int_of_string s with
  | Some d => inr (Z.of_int d)
  | None => inl (ValueError ("invalid literal for int() with base 10: '" +:+ s +:+ "'"))
  end.

(** [s.replace(old, new)] for a non-empty [old]: every occurrence, from
    the left, without overlap.  [skip] counts the characters of a matched
    occurrence that are still to be dropped. *)
Fixpoint replace_from (old new : string) (skip : nat) (s : string) : string :=
  match s with
  | EmptyString => EmptyString
  | String c s' =>
      match skip with
      | S k => replace_from old new k s'
      | O =>
          if String.prefix old s
          then new +:+ replace_from old new (Nat.pred (String.length old)) s'
          else String c (replace_from old new O s')
      end
  end.

Definition py_replace (old new s : string) : string := replace_from old new O s.

(** [c * n] and [s.ljust(n)] (the [<n] alignment of a format field). *)
Fixpoint str_repeat (c : string) (n : nat) : string :=
  match n with
  | O => EmptyString
  | S k => c +:+ str_repeat c k
  end.

Definition py_ljust (n : nat) (s : string) : string :=
  s +:+ str_repeat " " (n - String.length s).

(** [sep.join(items)]. *)
Fixpoint py_join (sep : string) (items : list string) : string :=
  match items with
  | [] => EmptyString
  | [x] => x
  | x :: rest => x +:+ sep +:+ py_join sep rest
  end.

Definition str_bool (b : bool) : string := if b then "True" else "False".

Definition newline : string := String "010"%char EmptyString.
Definition tab : string := String "009"%char EmptyString.

(** ** The fixed-point format [f"{x:.pf}"] *)

(** [num / den] rounded to the nearest integer, ties to even
    ([0 <= num], [0 < den]). *)
Definition round_half_even (num den : Z) : Z :=
  let q := num / den in
  match 2 * (num mod den) ?= den with
  | Lt => q
  | Gt => q + 1
  | Eq => if Z.even q then q else q + 1
  end.

(** [m * 2^e * 10^p], rounded: the digits of the float with [p] decimals.
    The conversion is exact on the binary value, as CPython's is. *)
Definition scaled_round (p : nat) (m : positive) (e : Z) : Z :=
  if 0 <=? e then Zpos m * 2 ^ e * 10 ^ Z.of_nat p
  else round_half_even (Zpos m * 10 ^ Z.of_nat p) (2 ^ (- e)).

(** The last [p] decimal digits of [n], one character each ([0 <= n]). *)
Fixpoint fraction_digits (p : nat) (n : Z) : string :=
  match p with
  | O => EmptyString
  | S p' => fraction_digits p' (n / 10) +:+ py_str (n mod 10)
  end.

(** The digits of [n / 10^p] with the point put in ([0 <= n]). *)
Definition fixed_digits (p : nat) (n : Z) : string :=
  match p with
  | O => py_str n
  | S _ =>
      py_str (n / 10 ^ Z.of_nat p) +:+ "." +:+ fraction_digits p (n mod 10 ^ Z.of_nat p)
  end.

Definition sign_str (s : bool) : string := if s then "-" else "".

Definition format_f (p : nat) (x : float) : string :=
  match x with
  | S754_nan => "nan"
  | S754_infinity s => sign_str s +:+ "inf"
  | S754_zero s => sign_str s +:+ fixed_digits p 0
  | S754_finite s m e => sign_str s +:+ fixed_digits p (scaled_round p m e)
  end.

(** ** The result of one benchmark case *)

Record Sample : Type := {
  time_seconds : float;
  cpu_percent : float;
  memory_kb : float
}.

Record CaseResult : Type := {
  data_size_kb : Z;
  encryption : Sample;
  decryption : Sample;
  success : bool
}.

(** [generate_test_data]: [b'A' * (size_kb * 1024)]; a non-positive
    repetition count gives the empty byte string. *)
Definition generate_test_data (size_kb : Z) : list ascii :=
  let data_size := size_kb * 1024 in
  repeat "A"%char (Z.to_nat data_size).

(** ** Computations that may raise *)

Definition ebind {A B : Type} (m : exn + A) (k : A -> exn + B) : exn + B :=
  match m with
  | inl e => inl e
  | inr a => k a
  end.

Notation "'let?' x ':=' m 'in' k" := (ebind m (fun x => k))
  (at level 10, x name, m at level 100, k at level 200).

(** ** The report exporter: the matrix of [export_results_to_csv] *)

(** A [for] loop whose body appends one cell to a list that starts
    empty. *)
Definition for_append {A : Type} (cell : A -> string) (xs : list A) : list string :=
  fold_left (fun acc x => acc ++ [cell x]) xs [].

(** The loop [for i, size in enumerate(data_sizes)]: [n] iterations are
    left, [i] is the index reached, and the list is updated in place at
    index [i]. *)
Fixpoint relabel_loop (n i : nat) (data_sizes : list string) : exn + list string :=
  match n with
  | O => inr data_sizes
  | S n' =>
      match data_sizes !! i with
      | None => inr data_sizes
      | Some size =>
          let? kb_value := py_int (py_replace "KB" "" size) in
          if 1024 <=? kb_value then
            let? mb_value := int_div_1024 kb_value in
            let? whole := int_of_float mb_value in
            if float_eq_int mb_value whole then
              relabel_loop n' (S i) (<[i := py_str whole +:+ "MB"]> data_sizes)
            else
              relabel_loop n' (S i) (<[i := format_f 1 mb_value +:+ "MB"]> data_sizes)
          else relabel_loop n' (S i) data_sizes
      end
  end.

(** The column labels: the list comprehension, then the loop over it. *)
Definition column_labels (all_results : list CaseResult) : exn + list string :=
  let data_sizes := map (fun result => py_str (data_size_kb result) +:+ "KB") all_results in
  relabel_loop (length data_sizes) 0 data_sizes.

(** [csv_data] as it stands when the function reaches the file write. *)
Definition csv_data (all_results : list CaseResult) : exn + list (list string) :=
  let? data_sizes := column_labels all_results in
  let csv_data := [] in
  let header := "ABE" :: data_sizes in
  let csv_data := csv_data ++ [header] in
  let key_times :=
    for_append (fun result =>
                  let key_time_ms := 81 + data_size_kb result mod 15 in
                  py_str key_time_ms +:+ "ms") all_results in
  let csv_data := csv_data ++ ["Key Creation Time" :: key_times] in
  let enc_times :=
    for_append (fun result =>
                  let time_ms := fmul (time_seconds (encryption result)) f1000 in
                  format_f 3 time_ms +:+ "ms") all_results in
  let csv_data := csv_data ++ ["Data Encryption - Time" :: enc_times] in
  let enc_cpu :=
    for_append (fun result => format_f 2 (cpu_percent (encryption result)) +:+ "%")
               all_results in
  let csv_data := csv_data ++ ["Data Encryption - CPU" :: enc_cpu] in
  let enc_ram :=
    for_append (fun result => format_f 0 (memory_kb (encryption result)) +:+ "KB")
               all_results in
  let csv_data := csv_data ++ ["Data Encryption - RAM" :: enc_ram] in
  let dec_times :=
    for_append (fun result =>
                  let time_ms := fmul (time_seconds (decryption result)) f1000 in
                  format_f 3 time_ms +:+ "ms") all_results in
  let csv_data := csv_data ++ ["Data Decryption - Time" :: dec_times] in
  let dec_cpu :=
    for_append (fun result => format_f 2 (cpu_percent (decryption result)) +:+ "%")
               all_results in
  let csv_data := csv_data ++ ["Data Decryption - CPU" :: dec_cpu] in
  let dec_ram :=
    for_append (fun result => format_f 0 (memory_kb (decryption result)) +:+ "KB")
               all_results in
  let csv_data := csv_data ++ ["Data Decryption - RAM" :: dec_ram] in
  inr csv_data.

(** ** The vocabulary of the specification *)

(** The decision function of the specification for the CPU percentage:
    the process-level reading when it is strictly positive, else the
    clamped system-wide delta when a baseline was captured, else zero. *)
Definition cpu_fallback (process_cpu : float) (before : option float) (after : float)
  : float :=
  if flt f0 process_cpu then process_cpu
  else
    match before with
    | Some b => py_min (py_max f0 (fsub after b)) f100
    | None => f0
    end.


(** The label one pass of the relabelling loop leaves for a size, and
    the labels of a sequence of sizes; the first size without a label
    decides the exception. *)
Definition label_of_size (size : Z) : exn + string :=
  if 1024 <=? size then
    let? mb_value := int_div_1024 size in
    let? whole := int_of_float mb_value in
    inr (if float_eq_int mb_value whole then py_str whole +:+ "MB"
         else format_f 1 mb_value +:+ "MB")
  else inr (py_str size +:+ "KB").

Fixpoint labels_of_sizes (sizes : list Z) : exn + list string :=
  match sizes with
  | [] => inr []
  | size :: rest =>
      let? label := label_of_size size in
      let? labels := labels_of_sizes rest in
      inr (label :: labels)
  end.

(** The division [size / 1024] of the relabelling loop does not raise:
    the size is below 1024 and is not divided, or its quotient is a
    float. *)
Definition label_division_defined (size : Z) : bool :=
  (size <? 1024) || match int_div_1024 size with inr _ => true | inl _ => false end.

(** The illustrative key-creation time of a payload size. *)
Definition key_creation_ms (size_kb : Z) : Z := 81 + size_kb mod 15.

(** The seven metric rows, in the order the specification lists them. *)
Definition metric_rows (rs : list CaseResult) : list (list string) :=
  [ "Key Creation Time"
      :: map (fun r => py_str (key_creation_ms (data_size_kb r)) +:+ "ms") rs;
    "Data Encryption - Time"
      :: map (fun r => format_f 3 (fmul (time_seconds (encryption r)) f1000) +:+ "ms") rs;
    "Data Encryption - CPU"
      :: map (fun r => format_f 2 (cpu_percent (encryption r)) +:+ "%") rs;
    "Data Encryption - RAM"
      :: map (fun r => format_f 0 (memory_kb (encryption r)) +:+ "KB") rs;
    "Data Decryption - Time"
      :: map (fun r => format_f 3 (fmul (time_seconds (decryption r)) f1000) +:+ "ms") rs;
    "Data Decryption - CPU"
      :: map (fun r => format_f 2 (cpu_percent (decryption r)) +:+ "%") rs;
    "Data Decryption - RAM"
      :: map (fun r => format_f 0 (memory_kb (decryption r)) +:+ "KB") rs ].

(** The attributes of the key and the policy of every case. *)
Definition case_attributes : list string := ["ONE"; "TWO"; "THREE"].
Definition case_policy : string := "((ONE and THREE) and (TWO OR FOUR))".


(** A case of a given payload size whose samples are all zero. *)
Definition case_of_size (size : Z) : CaseResult :=
  {| data_size_kb := size;
     encryption := {| time_seconds := f0; cpu_percent := f0; memory_kb := f0 |};
     decryption := {| time_seconds := f0; cpu_percent := f0; memory_kb := f0 |};
     success := true |}.

(** The results among the outcomes of a sequence of cases, and the sizes
    whose case came to a result. *)
Definition successes (outcomes : list (exn + CaseResult)) : list CaseResult :=
  omap (fun o => match o with inl _ => None | inr r => Some r end) outcomes.

Definition kept_sizes (sizes : list Z) (outcomes : list (exn + CaseResult)) : list Z :=
  omap (fun so => match snd so with inl _ => None | inr _ => Some (fst so) end)
       (zip sizes outcomes).

(** A finite float in normal form, and two clock readings of which the
    second is not before the first. *)
Definition finite_float (x : float) : bool :=
  match x with
  | S754_zero _ => true
  | S754_finite _ m e => bounded prec emax m e
  | S754_infinity _ | S754_nan => false
  end.

Definition clock_did_not_step_back (earlier later : float) : bool :=
  finite_float earlier && finite_float later && fle earlier later.

(** A float that is not NaN and carries the sign [s]. *)
Definition has_sign (s : bool) (x : float) : Prop :=
  match x with
  | S754_zero s' | S754_infinity s' | S754_finite s' _ _ => s' = s
  | S754_nan => False
  end.

(** No character of a string is the letter K. *)
Fixpoint no_K (s : string) : Prop :=
  match s with
  | EmptyString => True
  | String c s' => c <> "K"%char /\ no_K s'
  end.

(** ** The environment *)

(** What the operating system answers: the [n]-th query of each kind gets
    the [n]-th answer.  [env_write_error n] is the error, if any, of the
    [n]-th attempt to write a file. *)
Record Env : Type := {
  env_process_cpu : nat -> float;
  env_system_cpu : nat -> float;
  env_rss : nat -> Z;
  env_clock : nat -> float;
  env_write_error : nat -> option string
}.

Section Harness.

(** The ABE scheme is an external capability: its keys, ciphertexts and
    group elements are opaque, it has a state of its own (its source of
    randomness), and each of its operations may raise.  [==] on the
    values it encrypts is structural equality, which is decidable. *)
Context {PK MSK Key Ctxt Val CapSt : Type}.
Context `{!EqDecision Val}.

Record Capability : Type := {
  cap_setup : CapSt -> (exn + PK * MSK) * CapSt;
  cap_keygen : PK -> MSK -> list string -> CapSt -> (exn + Key) * CapSt;
  cap_random : CapSt -> (exn + Val) * CapSt;
  cap_encrypt : PK -> Val -> string -> CapSt -> (exn + Ctxt) * CapSt;
  cap_decrypt : PK -> Ctxt -> Key -> CapSt -> (exn + Val) * CapSt
}.

(** The calls made to the capability, with their arguments and their
    outcome. *)
Inductive CapEvent : Type :=
| EvSetup (r : exn + PK * MSK)
| EvKeygen (pk : PK) (msk : MSK) (attrs : list string) (r : exn + Key)
| EvRandom (r : exn + Val)
| EvEncrypt (pk : PK) (msg : Val) (policy : string) (r : exn + Ctxt)
| EvDecrypt (pk : PK) (ctxt : Ctxt) (key : Key) (r : exn + Val).

Record World : Type := {
  process_cpu_queries : nat;
  system_cpu_queries : nat;
  rss_queries : nat;
  clock_queries : nat;
  write_attempts : nat;
  cap_state : CapSt;
  cap_log : list CapEvent;
  console : list string;
  disk : list (string * list (list string))
}.

Variable env : Env.
Variable cpabe : Capability.

(** *** The monad of the program: state and exceptions *)

Definition M (A : Type) : Type := World -> (exn + A) * World.

Definition ret {A : Type} (a : A) : M A := fun w => (inr a, w).

Definition bind {A B : Type} (m : M A) (k : A -> M B) : M B :=
  fun w =>
    match m w with
    | (inl e, w') => (inl e, w')
    | (inr a, w') => k a w'
    end.

Definition lift {A : Type} (r : exn + A) : M A := fun w => (r, w).

(** [try: body except Exception as e: handler e]; what the body did to
    the world before it raised stays done. *)
Definition try_except {A : Type} (body : M A) (handler : exn -> M A) : M A :=
  fun w =>
    match body w with
    | (inl e, w') => handler e w'
    | (inr a, w') => (inr a, w')
    end.

Notation "'let*' x ':=' m 'in' k" := (bind m (fun x => k))
  (at level 10, x name, m at level 100, k at level 200).
Notation "'let*' ' p ':=' m 'in' k" := (bind m (fun x => match x with p => k end))
  (at level 10, p pattern, m at level 100, k at level 200).
Notation "m ';;;' k" := (bind m (fun _ => k))
  (at level 100, k at level 200, right associativity).

Fixpoint for_each {A : Type} (xs : list A) (body : A -> M unit) : M unit :=
  match xs with
  | [] => ret tt
  | x :: rest => body x ;;; for_each rest body
  end.

(** *** The primitive effects *)

(** [self.process.cpu_percent()] *)
Definition Process_cpu_percent : M float := fun w =>
  (inr (env_process_cpu env (process_cpu_queries w)),
   {| process_cpu_queries := S (process_cpu_queries w);
      system_cpu_queries := system_cpu_queries w;
      rss_queries := rss_queries w;
      clock_queries := clock_queries w;
      write_attempts := write_attempts w;
      cap_state := cap_state w;
      cap_log := cap_log w;
      console := console w;
      disk := disk w |}).

(** [psutil.cpu_percent(interval=None)] *)
Definition psutil_cpu_percent : M float := fun w =>
  (inr (env_system_cpu env (system_cpu_queries w)),
   {| process_cpu_queries := process_cpu_queries w;
      system_cpu_queries := S (system_cpu_queries w);
      rss_queries := rss_queries w;
      clock_queries := clock_queries w;
      write_attempts := write_attempts w;
      cap_state := cap_state w;
      cap_log := cap_log w;
      console := console w;
      disk := disk w |}).

(** [self.process.memory_info().rss] *)
Definition Process_memory_rss : M Z := fun w =>
  (inr (env_rss env (rss_queries w)),
   {| process_cpu_queries := process_cpu_queries w;
      system_cpu_queries := system_cpu_queries w;
      rss_queries := S (rss_queries w);
      clock_queries := clock_queries w;
      write_attempts := write_attempts w;
      cap_state := cap_state w;
      cap_log := cap_log w;
      console := console w;
      disk := disk w |}).

(** [time.time()] *)
Definition time_time : M float := fun w =>
  (inr (env_clock env (clock_queries w)),
   {| process_cpu_queries := process_cpu_queries w;
      system_cpu_queries := system_cpu_queries w;
      rss_queries := rss_queries w;
      clock_queries := S (clock_queries w);
      write_attempts := write_attempts w;
      cap_state := cap_state w;
      cap_log := cap_log w;
      console := console w;
      disk := disk w |}).

(** [time.sleep(0.01)] and [gc.collect()] leave no mark on the world of
    the model. *)
Definition time_sleep : M unit := ret tt.
Definition gc_collect : M unit := ret tt.

(** [print(line)] *)
Definition print (line : string) : M unit := fun w =>
  (inr tt,
   {| process_cpu_queries := process_cpu_queries w;
      system_cpu_queries := system_cpu_queries w;
      rss_queries := rss_queries w;
      clock_queries := clock_queries w;
      write_attempts := write_attempts w;
      cap_state := cap_state w;
      cap_log := cap_log w;
      console := console w ++ [line];
      disk := disk w |}).

(** [with open(path, 'w') ...: csv.writer(...).writerows(rows)]: the
    environment decides whether the attempt fails. *)
Definition write_csv (path : string) (rows : list (list string)) : M unit := fun w =>
  match env_write_error env (write_attempts w) with
  | Some msg =>
      (inl (Exception "OSError" msg),
       {| process_cpu_queries := process_cpu_queries w;
          system_cpu_queries := system_cpu_queries w;
          rss_queries := rss_queries w;
          clock_queries := clock_queries w;
          write_attempts := S (write_attempts w);
          cap_state := cap_state w;
          cap_log := cap_log w;
          console := console w;
          disk := disk w |})
  | None =>
      (inr tt,
       {| process_cpu_queries := process_cpu_queries w;
          system_cpu_queries := system_cpu_queries w;
          rss_queries := rss_queries w;
          clock_queries := clock_queries w;
          write_attempts := S (write_attempts w);
          cap_state := cap_state w;
          cap_log := cap_log w;
          console := console w;
          disk := (path, rows) :: disk w |})
  end.

(** A call to the capability: it runs on the capability's state and is
    entered in the log with its outcome. *)
Definition cap_call {A : Type} (op : CapSt -> (exn + A) * CapSt)
    (event : exn + A -> CapEvent) : M A := fun w =>
  let '(r, st) := op (cap_state w) in
  (r,
   {| process_cpu_queries := process_cpu_queries w;
      system_cpu_queries := system_cpu_queries w;
      rss_queries := rss_queries w;
      clock_queries := clock_queries w;
      write_attempts := write_attempts w;
      cap_state := st;
      cap_log := cap_log w ++ [event r];
      console := console w;
      disk := disk w |}).

Definition setup : M (PK * MSK) := cap_call (cap_setup cpabe) EvSetup.
Definition keygen (pk : PK) (msk : MSK) (attrs : list string) : M Key :=
  cap_call (cap_keygen cpabe pk msk attrs) (EvKeygen pk msk attrs).
Definition group_random : M Val := cap_call (cap_random cpabe) EvRandom.
Definition encrypt (pk : PK) (msg : Val) (policy : string) : M Ctxt :=
  cap_call (cap_encrypt cpabe pk msg policy) (EvEncrypt pk msg policy).
Definition decrypt (pk : PK) (ctxt : Ctxt) (key : Key) : M Val :=
  cap_call (cap_decrypt cpabe pk ctxt key) (EvDecrypt pk ctxt key).

(** *** [PerformanceMonitor] *)

(** The two fields the methods assign; [None] is Python's [None]. *)
Record PerformanceMonitor : Type := {
  system_cpu_before : option float;
  system_cpu_after : option float
}.

(** [__init__] *)
Definition PerformanceMonitor_init : M PerformanceMonitor :=
  Process_cpu_percent ;;;
  ret {| system_cpu_before := None; system_cpu_after := None |}.

Definition get_memory_usage (self : PerformanceMonitor) : M float :=
  let* rss := Process_memory_rss in
  lift (int_div_1024 rss).

Definition start_monitoring (self : PerformanceMonitor) : M PerformanceMonitor :=
  Process_cpu_percent ;;;
  let* baseline := psutil_cpu_percent in
  let self := {| system_cpu_before := Some baseline;
                 system_cpu_after := system_cpu_after self |} in
  time_sleep ;;;
  ret self.

(** The method returns the percentage; the updated object is returned
    with it. *)
Definition get_cpu_percent_isolated (self : PerformanceMonitor)
  : M (float * PerformanceMonitor) :=
  let* process_cpu := Process_cpu_percent in
  let* after := psutil_cpu_percent in
  let self := {| system_cpu_before := system_cpu_before self;
                 system_cpu_after := Some after |} in
  if flt f0 process_cpu then ret (process_cpu, self)
  else
    match system_cpu_before self, system_cpu_after self with
    | Some before, Some after =>
        let cpu_delta := py_max f0 (fsub after before) in
        ret (py_min cpu_delta f100, self)
    | _, _ => ret (f0, self)
    end.

(** *** [run_performance_test] *)

Definition run_performance_test (pk : PK) (msk : MSK) (data_size_kb : Z)
  : M CaseResult :=
  let* monitor := PerformanceMonitor_init in
  let test_data := generate_test_data data_size_kb in
  let attr_list := ["ONE"; "TWO"; "THREE"]%string in
  let* key := keygen pk msk attr_list in
  let policy_str := "((ONE and THREE) and (TWO OR FOUR))"%string in
  let* msg := group_random in
  gc_collect ;;;
  let* initial_memory := get_memory_usage monitor in
  let* monitor := start_monitoring monitor in
  let* start_time := time_time in
  let* ctxt := encrypt pk msg policy_str in
  let* end_time := time_time in
  let encryption_time := fsub end_time start_time in
  let* '(cpu_usage, monitor) := get_cpu_percent_isolated monitor in
  let* final_memory := get_memory_usage monitor in
  let memory_used := fsub final_memory initial_memory in
  let results_encryption :=
    {| time_seconds := encryption_time;
       cpu_percent := cpu_usage;
       memory_kb := py_max f0 memory_used |} in
  gc_collect ;;;
  let* initial_memory := get_memory_usage monitor in
  let* monitor := start_monitoring monitor in
  let* start_time := time_time in
  let* rec_msg := decrypt pk ctxt key in
  let* end_time := time_time in
  let decryption_time := fsub end_time start_time in
  let* '(cpu_usage, monitor) := get_cpu_percent_isolated monitor in
  let* final_memory := get_memory_usage monitor in
  let memory_used := fsub final_memory initial_memory in
  let results_decryption :=
    {| time_seconds := decryption_time;
       cpu_percent := cpu_usage;
       memory_kb := py_max f0 memory_used |} in
  ret {| data_size_kb := data_size_kb;
         encryption := results_encryption;
         decryption := results_decryption;
         success := bool_decide (rec_msg = msg) |}.

(** *** [export_results_to_csv] *)

Definition export_results_to_csv (all_results : list CaseResult) (filename : string)
  : M unit :=
  match all_results with
  | [] => print "No results to export"
  | _ :: _ =>
      let* csv_data := lift (csv_data all_results) in
      let csv_path := ("/Users/thanhtuan/son/ABE/samples/" +:+ filename)%string in
      try_except
        (write_csv csv_path csv_data ;;;
         print (newline +:+ "Results exported to: " +:+ csv_path) ;;;
         print (newline +:+ "=== CSV Content ===") ;;;
         for_each csv_data (fun row => print (py_join tab row)))
        (fun e => print ("Error writing CSV file: " +:+ str_exn e))
  end.

(** *** [run_performance_scenarios] *)

(** The two progress lines of a completed case. *)
Definition encryption_line (size_kb : Z) (results : CaseResult) : string :=
  let enc := encryption results in
  py_str size_kb +:+ "KB" +:+ py_ljust 6 "" +:+ " " +:+ py_ljust 12 "Encryption"
  +:+ " " +:+ py_ljust 12 (format_f 6 (time_seconds enc))
  +:+ " " +:+ py_ljust 10 (format_f 2 (cpu_percent enc))
  +:+ " " +:+ py_ljust 12 (format_f 2 (memory_kb enc))
  +:+ " " +:+ str_bool (success results).

Definition decryption_line (results : CaseResult) : string :=
  let dec := decryption results in
  py_ljust 10 "" +:+ " " +:+ py_ljust 12 "Decryption"
  +:+ " " +:+ py_ljust 12 (format_f 6 (time_seconds dec))
  +:+ " " +:+ py_ljust 10 (format_f 2 (cpu_percent dec))
  +:+ " " +:+ py_ljust 12 (format_f 2 (memory_kb dec))
  +:+ " " +:+ str_bool (success results).

Definition testing_line (size_kb : Z) : string :=
  "Testing " +:+ py_str size_kb +:+ "KB data...".

Definition error_line (size_kb : Z) (e : exn) : string :=
  "Error testing " +:+ py_str size_kb +:+ "KB: " +:+ str_exn e.

(** The body of the loop [for size_kb in data_sizes].  No [print] of
    the model raises, so the body of the [try] can only raise before it
    appends to [all_results]. *)
Definition benchmark_body (pk : PK) (msk : MSK) (size_kb : Z)
    (all_results : list CaseResult) : M (list CaseResult) :=
  print (testing_line size_kb) ;;;
  try_except
    (let* results := run_performance_test pk msk size_kb in
     let all_results := all_results ++ [results] in
     print (encryption_line size_kb results) ;;;
     print (decryption_line results) ;;;
     print (str_repeat "-" 80) ;;;
     ret all_results)
    (fun e =>
       print (error_line size_kb e) ;;;
       ret all_results).

Fixpoint benchmark_loop (pk : PK) (msk : MSK) (data_sizes : list Z)
    (all_results : list CaseResult) : M (list CaseResult) :=
  match data_sizes with
  | [] => ret all_results
  | size_kb :: rest =>
      let* all_results := benchmark_body pk msk size_kb all_results in
      benchmark_loop pk msk rest all_results
  end.

Definition summary_line (result : CaseResult) : string :=
  let size := data_size_kb result in
  let enc_time := time_seconds (encryption result) in
  let dec_time := time_seconds (decryption result) in
  "  " +:+ py_str size +:+ "KB: Enc=" +:+ format_f 6 enc_time
  +:+ "s, Dec=" +:+ format_f 6 dec_time +:+ "s".

(** The function, with its list of sizes as a parameter. *)
Definition run_performance_scenarios_on (data_sizes : list Z) : M unit :=
  let* '(pk, msk) := setup in
  print "=== ABE Performance Testing ===" ;;;
  print (py_ljust 10 "Data Size" +:+ " " +:+ py_ljust 12 "Operation" +:+ " "
         +:+ py_ljust 12 "Time (s)" +:+ " " +:+ py_ljust 10 "CPU (%)" +:+ " "
         +:+ py_ljust 12 "RAM (KB)" +:+ " " +:+ py_ljust 8 "Success") ;;;
  print (str_repeat "-" 80) ;;;
  let* all_results := benchmark_loop pk msk data_sizes [] in
  export_results_to_csv all_results "abe_performance_results.csv" ;;;
  print (newline +:+ "=== Summary Statistics ===") ;;;
  match all_results with
  | [] => ret tt
  | _ :: _ =>
      print "Average Encryption Time by Data Size:" ;;;
      for_each all_results (fun result => print (summary_line result))
  end.

Definition run_performance_scenarios : M unit :=
  run_performance_scenarios_on [1; 10; 100; 250; 500; 750; 1024; 5120; 7168; 10240].

(** The outcome of the case of each requested size, in request order;
    a case starts in the world that the iterations before it have
    left. *)
Fixpoint case_outcomes (pk : PK) (msk : MSK) (data_sizes : list Z) (w : World)
  : list (exn + CaseResult) :=
  match data_sizes with
  | [] => []
  | size_kb :: rest =>
      fst (run_performance_test pk msk size_kb (snd (print (testing_line size_kb) w)))
      :: case_outcomes pk msk rest (snd (benchmark_body pk msk size_kb [] w))
  end.

End Harness.

(** ** Worked instances *)

(** A toy scheme over the integers: a key is nothing, the random values
    are the successive naturals, encryption adds one and decryption
    subtracts [offset] (one for the matching key).  Its state counts the
    values drawn; the encryption of the [fail_at]-th value drawn raises. *)
Definition toy_capability (fail_at : nat) (offset : Z)
  : @Capability unit unit unit Z Z nat :=
  {| cap_setup := fun st => (inr (tt, tt), st);
     cap_keygen := fun _ _ _ st => (inr tt, st);
     cap_random := fun st => (inr (Z.of_nat st), S st);
     cap_encrypt := fun _ msg _ st =>
       if Nat.eqb st fail_at
       then (inl (Exception "RuntimeError" "policy could not be parsed"), st)
       else (inr (msg + 1), st);
     cap_decrypt := fun _ ctxt _ st => (inr (ctxt - offset), st) |}.

Definition fresh_world : @World unit unit unit Z Z nat :=
  {| process_cpu_queries := 0;
     system_cpu_queries := 0;
     rss_queries := 0;
     clock_queries := 0;
     write_attempts := 0;
     cap_state := O;
     cap_log := [];
     console := [];
     disk := [] |}.

Definition fresh_monitor : PerformanceMonitor :=
  {| system_cpu_before := None; system_cpu_after := None |}.

(** An idle machine: the process-level counter reads zero, the system
    load wanders, memory is released as often as it is claimed, the clock
    advances by three 1024ths of a second per reading, and the disk
    accepts every write. *)
Definition idle_env : Env :=
  {| env_process_cpu := fun _ => f0;
     env_system_cpu := fun n => float_of_int (Z.of_nat (7 * n) mod 13);
     env_rss := fun n =>
       50000000 + Z.of_nat n * 4096 * (if Nat.even n then 1 else -1);
     env_clock := fun n =>
       binary_normalize prec emax (1700000000000 + Z.of_nat n * 3) (-10) false;
     env_write_error := fun _ => None |}.


(** The wall clock is set back by one second between its first two
    readings. *)
Definition clock_set_back_env : Env :=
  {| env_process_cpu := env_process_cpu idle_env;
     env_system_cpu := env_system_cpu idle_env;
     env_rss := env_rss idle_env;
     env_clock := fun n => float_of_int (if Nat.even n then 10 else 9);
     env_write_error := env_write_error idle_env |}.

(** The disk is full. *)
Definition full_disk_env : Env :=
  {| env_process_cpu := env_process_cpu idle_env;
     env_system_cpu := env_system_cpu idle_env;
     env_rss := env_rss idle_env;
     env_clock := env_clock idle_env;
     env_write_error := fun _ => Some "No space left on device"%string |}.

(** The result of a run that returned one ([case_of_size 0] stands for a
    run that raised). *)
Definition result_of {W : Type} (run : (exn + CaseResult) * W) : CaseResult :=
  match fst run with
  | inr r => r
  | inl _ => case_of_size 0
  end.

(** The runs the examples look at: a case on the idle machine, a case
    during which the clock is set back, and an export to the full disk. *)
Definition idle_run : (exn + CaseResult) * @World unit unit unit Z Z nat :=
  run_performance_test idle_env (toy_capability 0 1) tt tt 1 fresh_world.

Definition set_back_run : (exn + CaseResult) * @World unit unit unit Z Z nat :=
  run_performance_test clock_set_back_env (toy_capability 0 1) tt tt 1 fresh_world.

Definition failed_export : (exn + unit) * @World unit unit unit Z Z nat :=
  export_results_to_csv full_disk_env [case_of_size 1] "abe_performance_results.csv"
                        fresh_world.


(** ** The entry point and the vocabulary of the further properties *)

(** Whether a float is exactly [a / 1024]. *)
Definition is_exactly_over_1024 (x : float) (a : Z) : bool :=
  match x with
  | S754_zero _ => a =? 0
  | S754_finite s m e =>
      if 0 <=? e then cond_Zopp s (Zpos m) * 2 ^ e * 1024 =? a
      else cond_Zopp s (Zpos m) * 1024 =? a * 2 ^ (- e)
  | S754_infinity _ | S754_nan => false
  end.

(** The path [export_results_to_csv] writes to. *)
Definition csv_path_of (filename : string) : string :=
  "/Users/thanhtuan/son/ABE/samples/" +:+ filename.

(** What a successful export prints after the write. *)
Definition export_lines (filename : string) (matrix : list (list string)) : list string :=
  [newline +:+ "Results exported to: " +:+ csv_path_of filename;
   newline +:+ "=== CSV Content ==="]
  ++ map (py_join tab) matrix.

(** The summary at the end of a run. *)
Definition summary_lines (results : list CaseResult) : list string :=
  (newline +:+ "=== Summary Statistics ===")
  :: match results with
     | [] => []
     | _ :: _ => "Average Encryption Time by Data Size:" :: map summary_line results
     end.

(** The three lines a run prints before its first case. *)
Definition banner_lines : list string :=
  ["=== ABE Performance Testing ===";
   py_ljust 10 "Data Size" +:+ " " +:+ py_ljust 12 "Operation" +:+ " "
   +:+ py_ljust 12 "Time (s)" +:+ " " +:+ py_ljust 10 "CPU (%)" +:+ " "
   +:+ py_ljust 12 "RAM (KB)" +:+ " " +:+ py_ljust 8 "Success";
   str_repeat "-" 80].

(** The console lines of one iteration of the suite, given the outcome
    of its case. *)
Definition case_lines (size_kb : Z) (outcome : exn + CaseResult) : list string :=
  testing_line size_kb
  :: match outcome with
     | inl e => [error_line size_kb e]
     | inr results =>
         [encryption_line size_kb results; decryption_line results; str_repeat "-" 80]
     end.

Fixpoint suite_lines (sizes : list Z) (outcomes : list (exn + CaseResult)) : list string :=
  match sizes, outcomes with
  | size_kb :: sizes', outcome :: outcomes' =>
      case_lines size_kb outcome ++ suite_lines sizes' outcomes'
  | _, _ => []
  end.

(** The column of a matrix at index [j]: the cell of each row. *)
Definition matrix_column (j : nat) (matrix : list (list string)) : list (option string) :=
  map (fun row => row !! j) matrix.

(** The seven formatted metrics of one result, in row order. *)
Definition metric_cells (r : CaseResult) : list string :=
  [ py_str (key_creation_ms (data_size_kb r)) +:+ "ms";
    format_f 3 (fmul (time_seconds (encryption r)) f1000) +:+ "ms";
    format_f 2 (cpu_percent (encryption r)) +:+ "%";
    format_f 0 (memory_kb (encryption r)) +:+ "KB";
    format_f 3 (fmul (time_seconds (decryption r)) f1000) +:+ "ms";
    format_f 2 (cpu_percent (decryption r)) +:+ "%";
    format_f 0 (memory_kb (decryption r)) +:+ "KB" ].

(** The exception of the division [size / 1024]. *)
(** What [export_results_to_csv] prints, given the error of the write
    attempt, if any. *)
Definition export_console (write_error : option string) (filename : string)
    (results : list CaseResult) (matrix : list (list string)) : list string :=
  match results with
  | [] => ["No results to export"]
  | _ :: _ =>
      match write_error with
      | Some msg => ["Error writing CSV file: " +:+ msg]
      | None => export_lines filename matrix
      end
  end.

(** What [main] prints after the run. *)
Definition trailer_lines : list string :=
  [newline +:+ str_repeat "=" 60;
   "SYSTEM CONFIGURATION INFORMATION";
   str_repeat "=" 60;
   "To generate hardware/software configuration table";
   "(as requested by Reviewer 1), run:";
   "python system_info.py";
   str_repeat "=" 60].

(** The verdict [main] prints on its own round trip when [debug] is set. *)
Definition verdict_lines (debug : bool) (round_trip : bool) : list string :=
  if debug then
    [if round_trip then "Successful decryption." else "Decryption failed."]
  else [].

(** The row titles of the report. *)
Definition row_titles : list string :=
  ["ABE"; "Key Creation Time"; "Data Encryption - Time"; "Data Encryption - CPU";
   "Data Encryption - RAM"; "Data Decryption - Time"; "Data Decryption - CPU";
   "Data Decryption - RAM"].

Definition division_overflow : exn :=
  OverflowError "integer division result too large for a float".

Definition is_failure {A : Type} (o : exn + A) : bool :=
  match o with inl _ => true | inr _ => false end.

Section Program.

Context {PK MSK Key Ctxt Val CapSt : Type}.
Context `{!EqDecision Val}.
Variable env : Env.
Variable cpabe : @Capability PK MSK Key Ctxt Val CapSt.

Notation "'let*' x ':=' m 'in' k" := (bind m (fun x => k))
  (at level 10, x name, m at level 100, k at level 200).
Notation "'let*' ' p ':=' m 'in' k" := (bind m (fun x => match x with p => k end))
  (at level 10, p pattern, m at level 100, k at level 200).
Notation "m ';;;' k" := (bind m (fun _ => k))
  (at level 100, k at level 200, right associativity).

(** [main].  The function reads the module-level name [debug], which
    exists only when the file is run as a script: [None] is the name not
    being defined, and reading it raises [NameError]. *)
Definition main (debug : option bool) : M unit :=
  let* '(pk, msk) := setup cpabe in
  let attr_list := ["ONE"; "TWO"; "THREE"]%string in
  let* key := keygen cpabe pk msk attr_list in
  let* msg := group_random cpabe in
  let policy_str := "((ONE and THREE) and (TWO OR FOUR))"%string in
  let* ctxt := encrypt cpabe pk msg policy_str in
  let* rec_msg := decrypt cpabe pk ctxt key in
  let* debug := lift (match debug with
                      | Some flag => inr flag
                      | None => inl (Exception "NameError" "name 'debug' is not defined")
                      end) in
  (if debug then
     if bool_decide (rec_msg = msg) then print "Successful decryption."
     else print "Decryption failed."
   else ret tt) ;;;
  print (newline +:+ "Starting performance testing scenarios...") ;;;
  run_performance_scenarios env cpabe ;;;
  print (newline +:+ str_repeat "=" 60) ;;;
  print "SYSTEM CONFIGURATION INFORMATION" ;;;
  print (str_repeat "=" 60) ;;;
  print "To generate hardware/software configuration table" ;;;
  print "(as requested by Reviewer 1), run:" ;;;
  print "python system_info.py" ;;;
  print (str_repeat "=" 60).

(** A call a benchmark case may make: with the keys it was given, the
    attribute list and the policy of the cases, and never [setup]. *)
(** The part of [main] before it reads [debug]: the round trip it
    makes once, which returns the value drawn and the value decrypted. *)
Definition self_test : M (Val * Val) :=
  let* '(pk, msk) := setup cpabe in
  let* key := keygen cpabe pk msk ["ONE"; "TWO"; "THREE"]%string in
  let* msg := group_random cpabe in
  let* ctxt := encrypt cpabe pk msg "((ONE and THREE) and (TWO OR FOUR))"%string in
  let* rec_msg := decrypt cpabe pk ctxt key in
  ret (msg, rec_msg).

(** The world after [lines] have been printed. *)
Definition printed (lines : list string) (w : @World PK MSK Key Ctxt Val CapSt)
  : @World PK MSK Key Ctxt Val CapSt :=
  {| process_cpu_queries := process_cpu_queries w;
     system_cpu_queries := system_cpu_queries w;
     rss_queries := rss_queries w;
     clock_queries := clock_queries w;
     write_attempts := write_attempts w;
     cap_state := cap_state w;
     cap_log := cap_log w;
     console := console w ++ lines;
     disk := disk w |}.

Definition case_call (pk : PK) (msk : MSK) (event : @CapEvent PK MSK Key Ctxt Val)
  : Prop :=
  match event with
  | EvSetup _ => False
  | EvKeygen pk' msk' attrs _ => pk' = pk /\ msk' = msk /\ attrs = case_attributes
  | EvRandom _ => True
  | EvEncrypt pk' _ policy _ => pk' = pk /\ policy = case_policy
  | EvDecrypt pk' _ _ _ => pk' = pk
  end.

End Program.

(** A scheme whose [setup] raises. *)
Definition locked_capability : @Capability unit unit unit Z Z nat :=
  {| cap_setup := fun st => (inl (Exception "RuntimeError" "pairing group not available"), st);
     cap_keygen := cap_keygen (toy_capability 0 1);
     cap_random := cap_random (toy_capability 0 1);
     cap_encrypt := cap_encrypt (toy_capability 0 1);
     cap_decrypt := cap_decrypt (toy_capability 0 1) |}.

(** The toy scheme that cannot encrypt the value drawn first: the first
    case of a run raises, the later ones complete. *)
Definition first_case_fails : @Capability unit unit unit Z Z nat := toy_capability 1 1.

(** The matrix of a result collection for which one is built. *)
Definition matrix_of (rs : list CaseResult) : list (list string) :=
  match csv_data rs with
  | inr matrix => matrix
  | inl _ => []
  end.

(** The round trip of [main] with the toy scheme and with the scheme
    whose [setup] raises, and the world in which the cases of a run of the
    toy scheme start. *)
Definition round_trip : (exn + Z * Z) * @World unit unit unit Z Z nat :=
  self_test (toy_capability 0 1) fresh_world.

Definition locked_round_trip : (exn + Z * Z) * @World unit unit unit Z Z nat :=
  self_test locked_capability fresh_world.

Definition after_banner : @World unit unit unit Z Z nat :=
  printed banner_lines (snd (setup first_case_fails fresh_world)).


(* ================================================================= *)
(** * Part II: properties *)
(* ================================================================= *)

(** ** Order facts on floats *)

Lemma SFcompare_antisym (x y : float) (c : comparison) :
  SFcompare x y = Some c -> SFcompare y x = Some (CompOpp c).
Proof.
  destruct x as [sx|sx| |sx mx ex], y as [sy|sy| |sy my ey]; simpl;
    try discriminate;
    try (destruct sx; intros [= <-]; reflexivity);
    try (destruct sy; intros [= <-]; reflexivity);
    try (intros [= <-]; reflexivity).
  - destruct sx, sy; intros [= <-]; reflexivity.
  - intros [= <-]. f_equal.
    rewrite (Z.compare_antisym ex ey).
    change (Pos.compare_cont Eq my mx) with (my ?= mx)%positive.
    change (Pos.compare_cont Eq mx my) with (mx ?= my)%positive.
    destruct sx, sy; simpl; try reflexivity;
      destruct (ex ?= ey); simpl; try reflexivity;
      rewrite (Pos.compare_antisym mx my);
      destruct (mx ?= my)%positive; reflexivity.
Qed.

Lemma SFcompare_None (x y : float) :
  SFcompare x y = None -> x = S754_nan \/ y = S754_nan.
Proof.
  destruct x as [sx|sx| |sx mx ex], y as [sy|sy| |sy my ey];
    try (now left); try (now right); discriminate.
Qed.

(** The two orders agree, and a comparison that fails one way holds the
    other way unless an operand is NaN. *)
Lemma flt_false_fle (x y : float) :
  flt x y = false -> x <> S754_nan -> y <> S754_nan -> fle y x = true.
Proof.
  unfold flt, fle, SFltb, SFleb. intros Hlt Hx Hy.
  destruct (SFcompare x y) as [c|] eqn:Hc.
  - rewrite (SFcompare_antisym _ _ _ Hc). destruct c; simpl; congruence.
  - destruct (SFcompare_None _ _ Hc); contradiction.
Qed.

Lemma flt_not_nan (x y : float) : flt x y = true -> x <> S754_nan /\ y <> S754_nan.
Proof.
  unfold flt, SFltb. intros H.
  destruct x, y; try discriminate H; split; discriminate.
Qed.

Lemma flt_fle (x y : float) : flt x y = true -> fle x y = true.
Proof.
  unfold flt, fle, SFltb, SFleb.
  destruct (SFcompare x y) as [[]|]; congruence.
Qed.

(** Whatever [x] is, [min(max(0, x), 100.0)] lies between [0] and [100]. *)
Lemma clamp_range (x : float) :
  fle f0 (py_min (py_max f0 x) f100) = true /\
  fle (py_min (py_max f0 x) f100) f100 = true.
Proof.
  unfold py_max.
  destruct (flt f0 x) eqn:Hpos.
  - unfold py_min. destruct (flt f100 x) eqn:Hbig.
    + split; reflexivity.
    + split; [now apply flt_fle|].
      apply flt_false_fle; [assumption|discriminate|].
      now apply (flt_not_nan f0 x).
  - split; reflexivity.
Qed.


(** ** Rounding an integer that fits the mantissa *)

Lemma digits2_pos_size (p : positive) : digits2_pos p = Pos.size p.
Proof. induction p; simpl; congruence. Qed.

Lemma digits2_pos_iter_xO (m d : positive) :
  digits2_pos (Pos.iter xO m d) = (digits2_pos m + d)%positive.
Proof.
  induction d as [|d IH] using Pos.peano_ind.
  - simpl. lia.
  - rewrite Pos.iter_succ. simpl. rewrite IH. lia.
Qed.

Lemma Zpos_iter_xO (m d : positive) :
  Zpos (Pos.iter xO m d) = Zpos m * 2 ^ Zpos d.
Proof.
  induction d as [|d IH] using Pos.peano_ind.
  - simpl. lia.
  - rewrite Pos.iter_succ, Pos2Z.inj_xO, IH, Pos2Z.inj_succ, Z.pow_succ_r by lia. lia.
Qed.

Lemma digits2_pos_bound (m : positive) (n : Z) :
  Zpos m < 2 ^ n -> 0 <= n -> Zpos (digits2_pos m) <= n.
Proof.
  intros Hm Hn. rewrite digits2_pos_size.
  destruct (Z.le_gt_cases (Zpos (Pos.size m)) n) as [|Hgt]; [assumption|exfalso].
  pose proof (Pos.size_le m) as Hle.
  assert (H2 : 2 ^ Zpos (Pos.size m) <= 2 * Zpos m).
  { change 2 with (Zpos 2) at 1. rewrite <- Pos2Z.inj_pow. 
    change (2 * Zpos m) with (Zpos m~0). now apply Pos2Z.pos_le_pos. }
  assert (H3 : 2 ^ (n + 1) <= 2 ^ Zpos (Pos.size m)) by (apply Z.pow_le_mono_r; lia).
  rewrite Z.pow_add_r in H3 by lia. lia.
Qed.

(** An integer of at most 53 bits, scaled by a power of two within the
    normal range, is a float: rounding only shifts it into place. *)
Lemma binary_normalize_exact (m : positive) (e : Z) :
  let k := 53 - Zpos (digits2_pos m) in
  0 <= k -> -1074 <= e - k -> e - k <= 971 ->
  binary_normalize prec emax (Zpos m) e false =
    S754_finite false (Z.to_pos (Zpos m * 2 ^ k)) (e - k).
Proof.
  intros k Hk Hlo Hhi.
  assert (Hfexp : forall mz, Zpos (digits2_pos mz) = 53 ->
            fexp prec emax (Zpos (digits2_pos mz) + (e - k)) = e - k).
  { intros mz ->. unfold fexp, SpecFloat.emin, prec, emax. lia. }
  assert (Haux : forall mz, Zpos (digits2_pos mz) = 53 ->
            binary_round_aux prec emax false (Zpos mz) (e - k) loc_Exact =
              S754_finite false mz (e - k)).
  { intros mz Hmz. unfold binary_round_aux, shr_fexp.
    cbn [Zdigits2 shr_record_of_loc]. rewrite (Hfexp mz Hmz), Z.sub_diag.
    cbn [shr shr_m loc_of_shr_record round_nearest_even Zdigits2 shr_record_of_loc].
    rewrite (Hfexp mz Hmz), Z.sub_diag. cbn [shr shr_m].
    replace (e - k <=? emax - prec) with true; [reflexivity|].
    symmetry. apply Z.leb_le. unfold emax, prec. lia. }
  unfold binary_normalize, binary_round, shl_align.
  replace (fexp prec emax (Zpos (digits2_pos m) + e)) with (e - k)
    by (unfold fexp, SpecFloat.emin, prec, emax; lia).
  replace (e - k - e) with (- k) by lia.
  destruct k as [|d|d] eqn:Ek; [| |lia].
  - cbn [Z.opp]. replace (e - 0) with e in * by lia.
    rewrite Z.mul_1_r. cbn [Z.to_pos].
    apply (Haux m). lia.
  - cbn [Z.opp]. rewrite <- Zpos_iter_xO. cbn [Z.to_pos].
    apply (Haux (Pos.iter xO m d)).
    rewrite digits2_pos_iter_xO, Pos2Z.inj_add. lia.
Qed.

(** ** The sign of a rounded difference *)

Lemma has_sign_nonneg (x : float) : has_sign false x -> fle f0 x = true.
Proof. destruct x as [s|s| |s m e]; simpl; intros H; subst; easy. Qed.

Lemma shr_1_nonneg (mrs : shr_record) : 0 <= shr_m mrs -> 0 <= shr_m (shr_1 mrs).
Proof.
  destruct mrs as [m r s]. cbn [shr_m]. intros Hm.
  destruct m as [|[p|p|]|p]; cbn; lia.
Qed.

Lemma iter_pos_invariant {A : Type} (f : A -> A) (P : A -> Prop) :
  (forall a, P a -> P (f a)) -> forall n a, P a -> P (SpecFloat.iter_pos f n a).
Proof.
  intros Hf. induction n as [n IH|n IH|]; intros a Ha; cbn [SpecFloat.iter_pos]; auto.
Qed.

Lemma shr_nonneg (mrs : shr_record) (e n : Z) :
  0 <= shr_m mrs -> 0 <= shr_m (fst (shr mrs e n)).
Proof.
  intros Hm. unfold shr. destruct n as [|p|p]; cbn [fst]; try assumption.
  apply iter_pos_invariant; [apply shr_1_nonneg|assumption].
Qed.

Lemma shr_fexp_nonneg (m e : Z) (l : location) :
  0 <= m -> 0 <= shr_m (fst (shr_fexp prec emax m e l)).
Proof.
  intros Hm. unfold shr_fexp. apply shr_nonneg.
  destruct l as [|[]]; assumption.
Qed.

Lemma round_nearest_even_nonneg (m : Z) (l : location) :
  0 <= m -> 0 <= round_nearest_even m l.
Proof.
  intros Hm. unfold round_nearest_even.
  destruct l as [|[]]; try lia. destruct (Z.even m); lia.
Qed.

(** Rounding a non-negative mantissa gives a float of the requested
    sign, never NaN. *)
Lemma binary_round_aux_sign (s : bool) (m e : Z) (l : location) :
  0 <= m -> has_sign s (binary_round_aux prec emax s m e l).
Proof.
  intros Hm. unfold binary_round_aux.
  pose proof (shr_fexp_nonneg m e l Hm) as H1.
  destruct (shr_fexp prec emax m e l) as [mrs' e'].
  cbn [fst] in H1.
  pose proof (shr_fexp_nonneg _ e' loc_Exact
                (round_nearest_even_nonneg _ (loc_of_shr_record mrs') H1)) as H2.
  destruct (shr_fexp prec emax _ e' loc_Exact) as [mrs'' e''].
  cbn [fst] in H2.
  destruct (shr_m mrs'') as [|p|p]; [reflexivity| |lia].
  destruct (e'' <=? emax - prec); reflexivity.
Qed.

Lemma binary_normalize_nonneg (m e : Z) :
  0 <= m -> has_sign false (binary_normalize prec emax m e false).
Proof.
  intros Hm. destruct m as [|p|p]; [reflexivity| |lia].
  unfold binary_normalize, binary_round.
  destruct (shl_align p e _) as [mz ez].
  apply binary_round_aux_sign. lia.
Qed.

Lemma shl_align_value (m : positive) (e ez : Z) :
  ez <= e -> Zpos (fst (shl_align m e ez)) = Zpos m * 2 ^ (e - ez).
Proof.
  intros Hle. unfold shl_align.
  destruct (ez - e) as [|d|d] eqn:Hd; cbn [fst].
  - replace (e - ez) with 0 by lia. lia.
  - lia.
  - rewrite Zpos_iter_xO. f_equal. f_equal. lia.
Qed.

(** Of two floats in normal form, the one with the smaller exponent has
    the smaller magnitude. *)
Lemma bounded_exponent_order (m1 m2 : positive) (e1 e2 : Z) :
  bounded prec emax m1 e1 = true -> bounded prec emax m2 e2 = true ->
  e1 < e2 -> Zpos m1 < Zpos m2 * 2 ^ (e2 - e1).
Proof.
  unfold bounded, canonical_mantissa, fexp, SpecFloat.emin, prec, emax.
  intros H1 H2 Hlt.
  apply andb_prop in H1 as [H1 _]. apply andb_prop in H2 as [H2 _].
  apply Z.eqb_eq in H1, H2.
  assert (Hd1 : Zpos (digits2_pos m1) <= 53) by lia.
  assert (Hd2 : Zpos (digits2_pos m2) = 53) by lia.
  rewrite digits2_pos_size in Hd1, Hd2.
  pose proof (Pos.size_gt m1) as Hgt. pose proof (Pos.size_le m2) as Hle.
  apply Pos2Z.pos_lt_pos in Hgt. apply Pos2Z.pos_le_pos in Hle.
  rewrite Pos2Z.inj_pow in Hgt, Hle. rewrite Pos2Z.inj_xO in Hle. rewrite Hd2 in Hle.
  assert (2 ^ Zpos (Pos.size m1) <= 2 ^ 53) by (apply Z.pow_le_mono_r; lia).
  assert (2 ^ 1 <= 2 ^ (e2 - e1)) by (apply Z.pow_le_mono_r; lia).
  change (2 ^ 1) with 2 in *. nia.
Qed.

(** The difference of two finite floats is never below zero when the
    second is not above the first. *)
Lemma fsub_nonneg (x y : float) :
  finite_float x = true -> finite_float y = true -> fle y x = true ->
  fle f0 (fsub x y) = true.
Proof.
  intros Hx Hy Hle.
  destruct x as [sx|sx| |sx mx ex], y as [sy|sy| |sy my ey]; try discriminate.
  - destruct sx, sy; reflexivity.
  - destruct sy; [reflexivity|discriminate].
  - destruct sx; [discriminate|reflexivity].
  - cbn [finite_float] in Hx, Hy. apply has_sign_nonneg.
    unfold fsub, SFsub. apply binary_normalize_nonneg.
    unfold fle, SFleb, SFcompare in Hle.
    change (Pos.compare_cont Eq my mx) with (my ?= mx)%positive in Hle.
    pose proof (Z.pow_pos_nonneg 2 (ex - Z.min ex ey) ltac:(lia) ltac:(lia)).
    pose proof (Z.pow_pos_nonneg 2 (ey - Z.min ex ey) ltac:(lia) ltac:(lia)).
    rewrite !shl_align_value by lia.
    destruct sx, sy; cbn [cond_Zopp]; try discriminate; try lia.
    + destruct (Z.compare_spec ey ex) as [->|Hlt|Hgt]; try discriminate.
      * rewrite Z.min_id, Z.sub_diag. 
        destruct (Pos.compare_spec my mx); try discriminate; lia.
      * pose proof (bounded_exponent_order mx my ex ey Hx Hy Hgt).
        rewrite Z.min_l, Z.sub_diag in * by lia. lia.
    + destruct (Z.compare_spec ey ex) as [->|Hlt|Hgt]; try discriminate.
      * rewrite Z.min_id, Z.sub_diag.
        destruct (Pos.compare_spec my mx); try discriminate; lia.
      * pose proof (bounded_exponent_order my mx ey ex Hy Hx Hlt).
        rewrite Z.min_r, Z.sub_diag in * by lia. lia.
Qed.

(** [max(0, x)] is never below zero, and it is zero when [x] is. *)
Lemma py_max_0_nonneg (x : float) : fle f0 (py_max f0 x) = true.
Proof.
  unfold py_max. destruct (flt f0 x) eqn:H; [now apply flt_fle|reflexivity].
Qed.

Lemma py_max_0_negative (x : float) : flt x f0 = true -> py_max f0 x = f0.
Proof.
  intros H. unfold py_max, flt, SFltb in *.
  destruct (SFcompare x f0) as [c|] eqn:Hc; [|discriminate].
  rewrite (SFcompare_antisym _ _ _ Hc). destruct c; try discriminate. reflexivity.
Qed.

(** ** Strings of integers *)


Lemma no_K_uint (d : Decimal.uint) : no_K (NilEmpty.string_of_uint d).
Proof. induction d; simpl; auto; split; auto; discriminate. Qed.

Lemma no_K_py_str (z : Z) : no_K (py_str z).
Proof.
  unfold py_str.
  destruct (Z.to_int z) as [d|d]; simpl.
  - destruct d; try apply (no_K_uint (_ _)); simpl; split; auto; discriminate.
  - split; [discriminate|].
    destruct d; try apply (no_K_uint (_ _)); simpl; split; auto; discriminate.
Qed.

Lemma replace_KB_suffix (s : string) :
  no_K s -> py_replace "KB" "" (s +:+ "KB") = s.
Proof.
  unfold py_replace.
  induction s as [|c s IH]; intros HK.
  - reflexivity.
  - destruct HK as [Hc HK].
    change (String c s +:+ "KB") with (String c (s +:+ "KB")).
    assert (Hp : String.prefix "KB" (String c (s +:+ "KB")) = false).
    { unfold String.prefix; fold String.prefix.
      destruct (ascii_dec "K" c) as [E|E]; [|reflexivity].
      exfalso. apply Hc. now symmetry. }
    unfold replace_from; fold replace_from.
    rewrite Hp. now rewrite IH.
Qed.

(** [int(str(z))] is [z]. *)
Lemma py_int_py_str (z : Z) : py_int (py_str z) = inr z.
Proof.
  unfold py_int, py_str.
  rewrite NilZero.isi.
  - now rewrite DecimalZ.of_to.
  - destruct z; simpl; try discriminate.
    intros [= H]. now apply (DecimalPos.Unsigned.to_uint_nonnil p).
  - destruct z; simpl; try discriminate.
    intros [= H]. now apply (DecimalPos.Unsigned.to_uint_nonnil p).
Qed.

(** The round trip of the relabelling loop: the size is read back from
    its own label. *)
Lemma kb_value_of_label (z : Z) :
  py_int (py_replace "KB" "" (py_str z +:+ "KB")) = inr z.
Proof. rewrite replace_KB_suffix by apply no_K_py_str. apply py_int_py_str. Qed.

(** ** The report matrix *)

Lemma for_append_map {A : Type} (cell : A -> string) (xs : list A) :
  for_append cell xs = map cell xs.
Proof.
  unfold for_append.
  cut (forall acc, fold_left (fun acc x => acc ++ [cell x]) xs acc = acc ++ map cell xs).
  { intros H. apply (H []). }
  induction xs as [|x xs IH]; intros acc; simpl.
  - now rewrite app_nil_r.
  - rewrite IH, <- app_assoc. reflexivity.
Qed.

Lemma csv_data_rows (rs : list CaseResult) :
  csv_data rs =
    let? labels := column_labels rs in inr (("ABE" :: labels) :: metric_rows rs).
Proof.
  unfold csv_data, metric_rows, key_creation_ms.
  destruct (column_labels rs) as [e|labels]; simpl; [reflexivity|].
  now rewrite !for_append_map.
Qed.

(** ** The fixed-point format *)

Lemma str_length_app (s1 s2 : string) :
  String.length (s1 +:+ s2) = (String.length s1 + String.length s2)%nat.
Proof.
  induction s1 as [|c s1 IH]; [reflexivity|].
  change (String c s1 +:+ s2) with (String c (s1 +:+ s2)).
  cbn [String.length]. now rewrite IH.
Qed.

Lemma str_app_nil_r (s : string) : s +:+ "" = s.
Proof.
  induction s as [|c s IH]; [reflexivity|].
  change (String c s +:+ "") with (String c (s +:+ "")). now rewrite IH.
Qed.

Lemma py_str_digit_length (d : Z) : 0 <= d < 10 -> String.length (py_str d) = 1%nat.
Proof.
  intros Hd.
  assert (d = 0 \/ d = 1 \/ d = 2 \/ d = 3 \/ d = 4 \/ d = 5 \/ d = 6 \/ d = 7
          \/ d = 8 \/ d = 9) as H by lia.
  repeat (destruct H as [->|H]; [reflexivity|]). now subst.
Qed.

Lemma fraction_digits_length (p : nat) : forall n : Z,
  String.length (fraction_digits p n) = p.
Proof.
  induction p as [|p IH]; intros n; [reflexivity|].
  cbn [fraction_digits].
  rewrite str_length_app, IH, py_str_digit_length by (apply Z.mod_pos_bound; lia).
  lia.
Qed.

(** A finite float printed with [p >= 1] decimals is its sign, the
    digits of an integer, the point, and exactly [p] digits; printed with
    none it is the sign and the digits of an integer. *)
Lemma format_f_decimals (p : nat) (x : float) :
  finite_float x = true ->
  exists (s : bool) (whole : Z) (fraction : string),
    format_f p x
    = sign_str s +:+ py_str whole +:+ (if p is O then "" else "." +:+ fraction)
    /\ String.length fraction = p.
Proof.
  intros Hx.
  assert (Hdigits : forall s n,
             exists whole fraction,
               sign_str s +:+ fixed_digits p n
               = sign_str s +:+ py_str whole +:+ (if p is O then "" else "." +:+ fraction)
               /\ String.length fraction = p).
  { intros s n. destruct p as [|p].
    - exists n, "". split; [|reflexivity].
      cbn [fixed_digits]. now rewrite str_app_nil_r.
    - eexists _, _. split; [reflexivity|]. apply fraction_digits_length. }
  destruct x as [s|s| |s m e]; try discriminate; cbn [format_f].
  - destruct (Hdigits s 0) as (whole & fraction & H); now exists s, whole, fraction.
  - destruct (Hdigits s (scaled_round p m e)) as (whole & fraction & H).
    now exists s, whole, fraction.
Qed.

(** ** The column label of a payload size *)

Lemma int_div_1024_exact (a : Z) :
  0 < a < 2 ^ 53 ->
  exists m d, 0 <= d /\ Zpos m = a * 2 ^ d /\
              int_div_1024 a = inr (S754_finite false m (- (10 + d))).
Proof.
  intros [Hpos Hlt]. destruct a as [|p|p]; try lia.
  pose proof (digits2_pos_bound p 53 Hlt ltac:(lia)) as Hd.
  exists (Z.to_pos (Zpos p * 2 ^ (53 - Zpos (digits2_pos p)))), (53 - Zpos (digits2_pos p)).
  assert (0 < 2 ^ (53 - Zpos (digits2_pos p))) by (apply Z.pow_pos_nonneg; lia).
  split; [lia|]. split; [rewrite Z2Pos.id; lia|].
  unfold int_div_1024.
  rewrite binary_normalize_exact by lia.
  f_equal. f_equal. lia.
Qed.



Section QuotientFloat.

(** The float [a / 1024] of a size [a] of at most 53 bits. *)
Variables (a d : Z) (m : positive).
Hypothesis Hd : 0 <= d.
Hypothesis Hm : Zpos m = a * 2 ^ d.

Let mb_value : float := S754_finite false m (- (10 + d)).





End QuotientFloat.

Lemma round_half_even_nonneg (n den : Z) :
  0 <= n -> 0 < den -> 0 <= round_half_even n den.
Proof.
  intros Hn Hden. unfold round_half_even.
  pose proof (Z.div_pos n den Hn Hden).
  destruct (2 * (n mod den) ?= den); [destruct (Z.even (n / den))| |]; lia.
Qed.


(** The relabelling loop, entry by entry: the labels before index
    [length relabelled] are final, the others are still the kilobyte
    labels of their sizes. *)
Lemma relabel_loop_labels (sizes : list Z) : forall relabelled : list string,
  relabel_loop (length sizes) (length relabelled)
               (relabelled ++ map (fun size => py_str size +:+ "KB") sizes)
  = let? labels := labels_of_sizes sizes in inr (relabelled ++ labels).
Proof.
  induction sizes as [|size sizes IH]; intros relabelled.
  - reflexivity.
  - cbn [length map relabel_loop labels_of_sizes].
    rewrite list_lookup_middle by reflexivity.
    rewrite kb_value_of_label. cbn [ebind]. unfold label_of_size.
    assert (Hnext : forall label,
               relabel_loop (length sizes) (S (length relabelled))
                 (relabelled ++ label :: map (fun size => py_str size +:+ "KB") sizes)
               = let? labels := labels_of_sizes sizes in
                 inr (relabelled ++ label :: labels)).
    { intros label. specialize (IH (relabelled ++ [label])).
      rewrite length_app, Nat.add_1_r, <- app_assoc in IH. cbn [app] in IH.
      rewrite IH.
      destruct (labels_of_sizes sizes); cbn [ebind]; [reflexivity|].
      now rewrite <- app_assoc. }
    assert (Hset : forall label,
               <[length relabelled := label]>
                 (relabelled ++ (py_str size +:+ "KB")
                             :: map (fun size => py_str size +:+ "KB") sizes)
               = relabelled ++ label :: map (fun size => py_str size +:+ "KB") sizes).
    { intros label. now rewrite insert_app_r_alt, Nat.sub_diag by lia. }
    destruct (1024 <=? size).
    + destruct (int_div_1024 size) as [e|mb_value]; cbn [ebind]; [reflexivity|].
      destruct (int_of_float mb_value) as [e|whole]; cbn [ebind]; [reflexivity|].
      destruct (float_eq_int mb_value whole); rewrite Hset, Hnext;
        destruct (labels_of_sizes sizes); reflexivity.
    + cbn [ebind]. rewrite Hnext. destruct (labels_of_sizes sizes); reflexivity.
Qed.

Lemma column_labels_sizes (rs : list CaseResult) :
  column_labels rs = labels_of_sizes (map data_size_kb rs).
Proof.
  unfold column_labels.
  pose proof (relabel_loop_labels (map data_size_kb rs) []) as H.
  rewrite length_map, !map_map in H. rewrite length_map.
  cbn [length app] in H. rewrite H.
  destruct (labels_of_sizes (map data_size_kb rs)); reflexivity.
Qed.



(** A size whose division by 1024 does not raise has a label. *)
Lemma label_of_size_defined (size : Z) :
  label_division_defined size = true -> exists label, label_of_size size = inr label.
Proof.
  intros Hdef. unfold label_of_size.
  destruct (Z.leb_spec 1024 size) as [Hbig|Hkb]; [|eexists; reflexivity].
  apply orb_prop in Hdef as [Hkb|Hdef]; [apply Z.ltb_lt in Hkb; lia|].
  destruct (int_div_1024 size) as [e|mb_value] eqn:Hdiv; [discriminate|].
  cbn [ebind].
  assert (Hsign : has_sign false mb_value).
  { unfold int_div_1024 in Hdiv.
    pose proof (binary_normalize_nonneg size (-10) ltac:(lia)) as Hq.
    destruct (binary_normalize prec emax size (-10) false);
      try discriminate; injection Hdiv as <-; exact Hq. }
  assert (Hfinite : forall s, mb_value <> S754_infinity s).
  { intros s ->. unfold int_div_1024 in Hdiv.
    destruct (binary_normalize prec emax size (-10) false); discriminate. }
  destruct mb_value as [s|s| |s m e]; cbn [int_of_float ebind].
  - eexists; reflexivity.
  - now destruct (Hfinite s).
  - destruct Hsign.
  - eexists; reflexivity.
Qed.




(** C9: in every report the key-creation row holds, case by case, the
    integer [81 + (payload_size_kb mod 15)] followed by [ms]; that integer
    depends on the payload size alone and lies between 81 and 95. *)
Theorem key_creation_time_row (rs : list CaseResult) (matrix : list (list string)) :
  csv_data rs = inr matrix ->
  matrix !! 1%nat
  = Some ("Key Creation Time"
            :: map (fun r => py_str (key_creation_ms (data_size_kb r)) +:+ "ms") rs)
  /\ (forall size, key_creation_ms size = 81 + size mod 15)
  /\ (forall size, 81 <= key_creation_ms size <= 95).
Proof.
  rewrite csv_data_rows. intros Hm. split; [|split].
  - destruct (column_labels rs); [discriminate|].
    cbn [ebind] in Hm. injection Hm as <-. reflexivity.
  - reflexivity.
  - intros size. unfold key_creation_ms.
    pose proof (Z.mod_pos_bound size 15). lia.
Qed.
(** ** The resource monitor *)

Section MonitorProperties.

Context {PK MSK Key Ctxt Val CapSt : Type}.
Variable env : Env.

Let World : Type := @World PK MSK Key Ctxt Val CapSt.



End MonitorProperties.

Section HarnessProperties.

Context {PK MSK Key Ctxt Val CapSt : Type}.
Context `{!EqDecision Val}.
Variable env : Env.
Variable cpabe : @Capability PK MSK Key Ctxt Val CapSt.

Let World : Type := @World PK MSK Key Ctxt Val CapSt.
Let CapEvent : Type := @CapEvent PK MSK Key Ctxt Val.

Ltac unfold_case :=
  unfold run_performance_test, keygen, group_random, encrypt, decrypt, cap_call, bind,
    get_memory_usage, start_monitoring, get_cpu_percent_isolated,
    PerformanceMonitor_init, gc_collect, time_sleep, time_time, Process_memory_rss,
    Process_cpu_percent, psutil_cpu_percent, lift, ret.

Ltac reduce_case :=
  cbn -[fsub py_max py_min flt f0 f100 int_div_1024 bool_decide generate_test_data].

Ltac split_case :=
  match goal with
  | |- context [cap_keygen ?c ?a1 ?a2 ?a3 ?s] =>
      destruct (cap_keygen c a1 a2 a3 s) as [[?e|?key] ?st]
  | |- context [cap_random ?c ?s] =>
      destruct (cap_random c s) as [[?e|?msg] ?st]
  | |- context [cap_encrypt ?c ?a1 ?a2 ?a3 ?s] =>
      destruct (cap_encrypt c a1 a2 a3 s) as [[?e|?ctxt] ?st]
  | |- context [cap_decrypt ?c ?a1 ?a2 ?a3 ?s] =>
      destruct (cap_decrypt c a1 a2 a3 s) as [[?e|?rec_msg] ?st]
  | |- context [int_div_1024 ?rss] =>
      destruct (int_div_1024 rss) as [?e|?memory] eqn:?Hmemory
  | |- context [if flt f0 ?cpu then _ else _] =>
      destruct (flt f0 cpu) eqn:?Hcpu
  end.

(** What a completed case has done and what it returns, in terms of
    the answers of the environment. *)
Lemma run_performance_test_result (pk : PK) (msk : MSK) (size : Z) (w w' : World)
    (r : CaseResult) :
  run_performance_test env cpabe pk msk size w = (inr r, w') ->
  exists key msg ctxt rec_msg m0 m1 m2 m3,
    cap_log w' = cap_log w ++
      [EvKeygen pk msk case_attributes (inr key); EvRandom (inr msg);
       EvEncrypt pk msg case_policy (inr ctxt); EvDecrypt pk ctxt key (inr rec_msg)]
    /\ int_div_1024 (env_rss env (rss_queries w)) = inr m0
    /\ int_div_1024 (env_rss env (S (rss_queries w))) = inr m1
    /\ int_div_1024 (env_rss env (S (S (rss_queries w)))) = inr m2
    /\ int_div_1024 (env_rss env (S (S (S (rss_queries w))))) = inr m3
    /\ r = {| data_size_kb := size;
              encryption :=
                {| time_seconds := fsub (env_clock env (S (clock_queries w)))
                                        (env_clock env (clock_queries w));
                   cpu_percent :=
                     cpu_fallback
                       (env_process_cpu env (S (S (process_cpu_queries w))))
                       (Some (env_system_cpu env (system_cpu_queries w)))
                       (env_system_cpu env (S (system_cpu_queries w)));
                   memory_kb := py_max f0 (fsub m1 m0) |};
              decryption :=
                {| time_seconds := fsub (env_clock env (S (S (S (clock_queries w)))))
                                        (env_clock env (S (S (clock_queries w))));
                   cpu_percent :=
                     cpu_fallback
                       (env_process_cpu env (S (S (S (S (process_cpu_queries w))))))
                       (Some (env_system_cpu env (S (S (system_cpu_queries w)))))
                       (env_system_cpu env (S (S (S (system_cpu_queries w)))));
                   memory_kb := py_max f0 (fsub m3 m2) |};
              success := bool_decide (rec_msg = msg) |}.
Proof.
  unfold_case. unfold cpu_fallback.
  repeat (reduce_case; split_case; try discriminate).
  all: reduce_case; intros Hrun; apply pair_equal_spec in Hrun as [Hr <-];
    injection Hr as <-; simplify_eq; reduce_case.
  all: eexists _, _, _, _, _, _, _, _.
  all: rewrite <- !app_assoc; repeat split; reflexivity.
Qed.


(** C10: a completed case has made exactly four calls to the
    capability: the key generation, the draw of a random value [msg],
    the encryption of [msg], and the decryption of the ciphertext so
    obtained with the generated key; its [success] flag is true if and
    only if the value the decryption returned equals [msg]. *)
Theorem success_iff_round_trip (pk : PK) (msk : MSK) (size : Z) (w w' : World)
    (r : CaseResult) :
  run_performance_test env cpabe pk msk size w = (inr r, w') ->
  exists key msg ctxt rec_msg,
    cap_log w' = cap_log w ++
      [EvKeygen pk msk case_attributes (inr key); EvRandom (inr msg);
       EvEncrypt pk msg case_policy (inr ctxt); EvDecrypt pk ctxt key (inr rec_msg)]
    /\ (success r = true <-> rec_msg = msg).
Proof.
  intros Hrun.
  destruct (run_performance_test_result _ _ _ _ _ _ Hrun)
    as (key & msg & ctxt & rec_msg & m0 & m1 & m2 & m3 & Hlog & _ & _ & _ & _ & ->).
  exists key, msg, ctxt, rec_msg. split; [exact Hlog|].
  cbn [success]. apply bool_decide_eq_true.
Qed.

(** C6 (amended): in the result of a completed case the memory of both
    phases is never below zero, a negative difference of the two
    memory readings of a phase being reported as exactly zero; the
    elapsed time of a phase is the difference of the two clock readings
    that bracket its call, and it is not below zero whenever the clock
    did not step back between them. *)
Theorem case_samples_nonnegative (pk : PK) (msk : MSK) (size : Z) (w w' : World)
    (r : CaseResult) :
  0 < size ->
  run_performance_test env cpabe pk msk size w = (inr r, w') ->
  let t := env_clock env in
  let n := clock_queries w in
  (fle f0 (memory_kb (encryption r)) = true /\
   fle f0 (memory_kb (decryption r)) = true)
  /\ (exists m0 m1 m2 m3,
        int_div_1024 (env_rss env (rss_queries w)) = inr m0
        /\ int_div_1024 (env_rss env (S (rss_queries w))) = inr m1
        /\ int_div_1024 (env_rss env (S (S (rss_queries w)))) = inr m2
        /\ int_div_1024 (env_rss env (S (S (S (rss_queries w))))) = inr m3
        /\ (flt (fsub m1 m0) f0 = true -> memory_kb (encryption r) = f0)
        /\ (flt (fsub m3 m2) f0 = true -> memory_kb (decryption r) = f0))
  /\ time_seconds (encryption r) = fsub (t (S n)) (t n)
  /\ time_seconds (decryption r) = fsub (t (S (S (S n)))) (t (S (S n)))
  /\ (clock_did_not_step_back (t n) (t (S n)) = true ->
      fle f0 (time_seconds (encryption r)) = true)
  /\ (clock_did_not_step_back (t (S (S n))) (t (S (S (S n)))) = true ->
      fle f0 (time_seconds (decryption r)) = true).
Proof.
  intros _ Hrun t n.
  destruct (run_performance_test_result _ _ _ _ _ _ Hrun)
    as (key & msg & ctxt & rec_msg & m0 & m1 & m2 & m3 & _ & H0 & H1 & H2 & H3 & ->).
  cbn [encryption decryption memory_kb time_seconds].
  assert (Hclock : forall a b, clock_did_not_step_back a b = true ->
                               fle f0 (fsub b a) = true).
  { intros a b Hab. unfold clock_did_not_step_back in Hab.
    apply andb_prop in Hab as [Hab Hle]. apply andb_prop in Hab as [Ha Hb].
    now apply fsub_nonneg. }
  repeat split; try apply py_max_0_nonneg; try (intros; now apply Hclock).
  exists m0, m1, m2, m3.
  repeat split; try assumption; apply py_max_0_negative.
Qed.

(** *** The suite *)

Lemma benchmark_body_outcome (pk : PK) (msk : MSK) (size : Z)
    (all_results : list CaseResult) (w : World) :
  benchmark_body env cpabe pk msk size all_results w
  = (inr (all_results ++
          successes [fst (run_performance_test env cpabe pk msk size
                            (snd (print (testing_line size) w)))]),
     snd (benchmark_body env cpabe pk msk size [] w)).
Proof.
  unfold benchmark_body, bind, try_except, print, ret.
  cbv beta iota. cbn [snd].
  destruct (run_performance_test _ _ _ _ _ _) as [[e|r] w1]; cbv beta iota.
  - cbn [fst snd successes omap]. now rewrite app_nil_r.
  - reflexivity.
Qed.

Lemma benchmark_loop_outcomes (pk : PK) (msk : MSK) (sizes : list Z) :
  forall (all_results : list CaseResult) (w : World),
    fst (benchmark_loop env cpabe pk msk sizes all_results w)
    = inr (all_results ++ successes (case_outcomes env cpabe pk msk sizes w)).
Proof.
  induction sizes as [|size sizes IH]; intros all_results w.
  - cbn. now rewrite app_nil_r.
  - cbn [benchmark_loop case_outcomes]. unfold bind.
    rewrite benchmark_body_outcome. rewrite IH.
    rewrite <- app_assoc. do 2 f_equal.
    unfold successes. cbn [omap].
    destruct (fst (run_performance_test _ _ _ _ _ _)); reflexivity.
Qed.

Lemma case_outcomes_length (pk : PK) (msk : MSK) (sizes : list Z) :
  forall w : World, length (case_outcomes env cpabe pk msk sizes w) = length sizes.
Proof. induction sizes as [|size sizes IH]; intros w; cbn; [|rewrite IH]; reflexivity. Qed.

Lemma case_outcomes_sizes (pk : PK) (msk : MSK) (sizes : list Z) :
  forall w : World,
    map data_size_kb (successes (case_outcomes env cpabe pk msk sizes w))
    = kept_sizes sizes (case_outcomes env cpabe pk msk sizes w).
Proof.
  induction sizes as [|size sizes IH]; intros w; [reflexivity|].
  cbn [case_outcomes]. unfold successes, kept_sizes in *.
  cbn [zip zip_with omap fst snd].
  destruct (run_performance_test _ _ _ _ _ _) as [[e|r] w1] eqn:Hrun;
    cbn [fst snd omap map list_omap].
  - apply IH.
  - rewrite IH. f_equal.
    destruct (run_performance_test_result _ _ _ _ _ _ Hrun)
      as (? & ? & ? & ? & ? & ? & ? & ? & _ & _ & _ & _ & _ & ->).
    reflexivity.
Qed.

Lemma case_outcomes_lookup (pk : PK) (msk : MSK) (sizes : list Z) :
  forall (w : World) (i : nat) (size : Z) (r : CaseResult),
    sizes !! i = Some size ->
    case_outcomes env cpabe pk msk sizes w !! i = Some (inr r) ->
    data_size_kb r = size.
Proof.
  induction sizes as [|size0 sizes IH]; intros w i size r Hsize Hout;
    [discriminate|].
  destruct i as [|i]; cbn [case_outcomes] in Hout.
  - injection Hsize as <-. injection Hout as Hout.
    destruct (run_performance_test _ _ _ _ _ _) as [o w1] eqn:Hrun.
    cbn [fst] in Hout. subst o.
    destruct (run_performance_test_result _ _ _ _ _ _ Hrun)
      as (? & ? & ? & ? & ? & ? & ? & ? & _ & _ & _ & _ & _ & ->).
    reflexivity.
  - exact (IH _ i size r Hsize Hout).
Qed.

(** C4: the suite runs the case of every requested size, whatever the
    cases before it did; it never raises, and the collection it builds
    holds, in request order, the results of exactly the cases that did
    not raise: a case that raises adds nothing, every case that returns
    has its result, with its own payload size, in the collection, and
    the payload sizes of the results are the requested sizes without
    those of the cases that raised. *)
Theorem suite_isolates_failures (pk : PK) (msk : MSK) (sizes : list Z) (w : World) :
  let outcomes := case_outcomes env cpabe pk msk sizes w in
  fst (benchmark_loop env cpabe pk msk sizes [] w) = inr (successes outcomes)
  /\ length outcomes = length sizes
  /\ map data_size_kb (successes outcomes) = kept_sizes sizes outcomes
  /\ (forall (i : nat) (size : Z) (r : CaseResult),
        sizes !! i = Some size -> outcomes !! i = Some (inr r) ->
        r ∈ successes outcomes /\ data_size_kb r = size).
Proof.
  intros outcomes. split; [|split; [|split]].
  - apply (benchmark_loop_outcomes pk msk sizes []).
  - apply case_outcomes_length.
  - apply case_outcomes_sizes.
  - intros i size r Hsize Hout. split.
    + apply list_elem_of_omap. exists (inr r).
      split; [|reflexivity]. eapply list_elem_of_lookup_2. exact Hout.
    + exact (case_outcomes_lookup pk msk sizes w i size r Hsize Hout).
Qed.

(** *** The export *)

(** C3 (amended): when the report matrix has been built and writing it
    fails, [export_results_to_csv] reports the error on the console and
    returns normally, so the run goes on; it prints nothing else: the
    console rendering of the matrix comes after the write and is skipped
    with it. *)
Theorem export_survives_write_failure (rs : list CaseResult) (filename msg : string)
    (matrix : list (list string)) (w : World) :
  rs <> [] ->
  csv_data rs = inr matrix ->
  env_write_error env (write_attempts w) = Some msg ->
  exists w',
    export_results_to_csv env rs filename w = (inr tt, w')
    /\ console w' = console w ++ ["Error writing CSV file: " +:+ msg].
Proof.
  intros Hrs Hcsv Hfail. destruct rs as [|r rs]; [contradiction|].
  unfold export_results_to_csv, bind, lift, try_except, write_csv.
  rewrite Hcsv, Hfail. cbv beta iota.
  eexists. split; reflexivity.
Qed.

End HarnessProperties.


(* ================================================================= *)
(** * Part III: the theorems at work *)
(* ================================================================= *)

(** ** The monitor *)



(** ** The benchmark case *)


(** The case on the idle machine with the matching key: four calls, and
    the flag is set exactly when the value comes back. *)
Lemma success_iff_round_trip_witness :
  run_performance_test idle_env (toy_capability 0 1) tt tt 1 fresh_world
  = (inr (result_of idle_run), snd idle_run) /\
  exists key msg ctxt rec_msg,
    cap_log (snd idle_run) = cap_log fresh_world ++
      [EvKeygen tt tt case_attributes (inr key); EvRandom (inr msg);
       EvEncrypt tt msg case_policy (inr ctxt); EvDecrypt tt ctxt key (inr rec_msg)]
    /\ (success (result_of idle_run) = true <-> rec_msg = msg).
Proof.
  assert (Hrun : run_performance_test idle_env (toy_capability 0 1) tt tt 1 fresh_world
                 = (inr (result_of idle_run), snd idle_run))
    by (vm_compute; reflexivity).
  split; [exact Hrun|].
  exact (success_iff_round_trip idle_env (toy_capability 0 1) tt tt 1 fresh_world
           (snd idle_run) (result_of idle_run) Hrun).
Defined.

(** With the matching key the flag is set; with a key that decrypts to
    another value it is not. *)
Lemma success_flag_examples :
  success (result_of idle_run) = true /\
  success (result_of (run_performance_test idle_env (toy_capability 0 0) tt tt 1
                                           fresh_world)) = false.
Proof. split; vm_compute; reflexivity. Qed.

(** The case on the idle machine, whose clock advances: no sample is
    below zero. *)
Lemma case_samples_nonnegative_witness :
  0 < 1 /\
  run_performance_test idle_env (toy_capability 0 1) tt tt 1 fresh_world
  = (inr (result_of idle_run), snd idle_run) /\
  clock_did_not_step_back (env_clock idle_env 0) (env_clock idle_env 1) = true /\
  clock_did_not_step_back (env_clock idle_env 2) (env_clock idle_env 3) = true /\
  fle f0 (memory_kb (encryption (result_of idle_run))) = true /\
  fle f0 (memory_kb (decryption (result_of idle_run))) = true /\
  fle f0 (time_seconds (encryption (result_of idle_run))) = true /\
  fle f0 (time_seconds (decryption (result_of idle_run))) = true.
Proof.
  assert (Hsize : 0 < 1) by lia.
  assert (Hrun : run_performance_test idle_env (toy_capability 0 1) tt tt 1 fresh_world
                 = (inr (result_of idle_run), snd idle_run))
    by (vm_compute; reflexivity).
  assert (Henc : clock_did_not_step_back (env_clock idle_env 0) (env_clock idle_env 1)
                 = true) by (vm_compute; reflexivity).
  assert (Hdec : clock_did_not_step_back (env_clock idle_env 2) (env_clock idle_env 3)
                 = true) by (vm_compute; reflexivity).
  destruct (case_samples_nonnegative idle_env (toy_capability 0 1) tt tt 1 fresh_world
              (snd idle_run) (result_of idle_run) Hsize Hrun)
    as ([Hmem_enc Hmem_dec] & _ & _ & _ & Htime_enc & Htime_dec).
  exact (conj Hsize (conj Hrun (conj Henc (conj Hdec (conj Hmem_enc (conj Hmem_dec
           (conj (Htime_enc Henc) (Htime_dec Hdec)))))))).
Defined.

(** The clock is set back by a second during the encryption: the case
    completes and reports an elapsed time of minus one second. *)
Lemma elapsed_negative_when_clock_set_back :
  0 < 1 /\
  run_performance_test clock_set_back_env (toy_capability 0 1) tt tt 1 fresh_world
  = (inr (result_of set_back_run), snd set_back_run) /\
  time_seconds (encryption (result_of set_back_run)) = float_of_int (-1) /\
  fle f0 (time_seconds (encryption (result_of set_back_run))) = false.
Proof.
  split; [lia|]. split; [vm_compute; reflexivity|].
  split; vm_compute; reflexivity.
Qed.

(** ** The suite *)

(** The encryption of the third case raises: the suite returns the
    results of the three other sizes, in request order. *)
Lemma suite_isolates_failures_witness :
  exists results,
    fst (benchmark_loop idle_env (toy_capability 3 1) tt tt [1; 10; 100; 250] []
                        fresh_world) = inr results
    /\ map data_size_kb results = [1; 10; 250].
Proof.
  destruct (suite_isolates_failures idle_env (toy_capability 3 1) tt tt
              [1; 10; 100; 250] fresh_world) as (Hloop & _ & Hsizes & _).
  eexists. split; [exact Hloop|].
  rewrite Hsizes. vm_compute. reflexivity.
Defined.

(** ** The report *)




(** The matrix of the three sizes 1, 1024 and 5120. *)
Lemma csv_data_three_sizes :
  csv_data (map case_of_size [1; 1024; 5120])
  = inr [ ["ABE"; "1KB"; "1MB"; "5MB"];
          ["Key Creation Time"; "82ms"; "85ms"; "86ms"];
          ["Data Encryption - Time"; "0.000ms"; "0.000ms"; "0.000ms"];
          ["Data Encryption - CPU"; "0.00%"; "0.00%"; "0.00%"];
          ["Data Encryption - RAM"; "0KB"; "0KB"; "0KB"];
          ["Data Decryption - Time"; "0.000ms"; "0.000ms"; "0.000ms"];
          ["Data Decryption - CPU"; "0.00%"; "0.00%"; "0.00%"];
          ["Data Decryption - RAM"; "0KB"; "0KB"; "0KB"] ].
Proof. vm_compute. reflexivity. Qed.


(** The key-creation row of the three sizes 1, 1024 and 5120. *)
Lemma key_creation_time_row_witness :
  csv_data (map case_of_size [1; 1024; 5120])
  = inr (("ABE" :: ["1KB"; "1MB"; "5MB"]) :: metric_rows (map case_of_size [1; 1024; 5120]))
  /\ (("ABE" :: ["1KB"; "1MB"; "5MB"]) :: metric_rows (map case_of_size [1; 1024; 5120]))
       !! 1%nat
     = Some ["Key Creation Time"; "82ms"; "85ms"; "86ms"].
Proof.
  assert (Hcsv : csv_data (map case_of_size [1; 1024; 5120])
                 = inr (("ABE" :: ["1KB"; "1MB"; "5MB"])
                          :: metric_rows (map case_of_size [1; 1024; 5120])))
    by (vm_compute; reflexivity).
  split; [exact Hcsv|].
  rewrite (proj1 (key_creation_time_row _ _ Hcsv)). reflexivity.
Defined.

(** ** The export *)

(** The export of one case to the full disk. *)
Lemma export_survives_write_failure_witness :
  [case_of_size 1] <> [] /\
  csv_data [case_of_size 1] = inr (("ABE" :: ["1KB"]) :: metric_rows [case_of_size 1]) /\
  env_write_error full_disk_env (write_attempts fresh_world)
  = Some "No space left on device" /\
  exists w',
    export_results_to_csv full_disk_env [case_of_size 1] "abe_performance_results.csv"
                          fresh_world = (inr tt, w')
    /\ console w' = console fresh_world
                    ++ ["Error writing CSV file: " +:+ "No space left on device"].
Proof.
  assert (Hne : [case_of_size 1] <> []) by discriminate.
  assert (Hcsv : csv_data [case_of_size 1]
                 = inr (("ABE" :: ["1KB"]) :: metric_rows [case_of_size 1]))
    by (vm_compute; reflexivity).
  assert (Hfail : env_write_error full_disk_env (write_attempts fresh_world)
                  = Some "No space left on device") by reflexivity.
  split; [exact Hne|]. split; [exact Hcsv|]. split; [exact Hfail|].
  exact (export_survives_write_failure full_disk_env [case_of_size 1]
           "abe_performance_results.csv" "No space left on device" _ fresh_world
           Hne Hcsv Hfail).
Defined.

(** The disk is full: the error line is all the export prints, and the
    rows of the matrix are not rendered. *)
Lemma write_failure_skips_console_rendering :
  csv_data [case_of_size 1] = inr (("ABE" :: ["1KB"]) :: metric_rows [case_of_size 1]) /\
  env_write_error full_disk_env (write_attempts fresh_world)
  = Some "No space left on device" /\
  fst failed_export = inr tt /\
  console (snd failed_export) = ["Error writing CSV file: No space left on device"] /\
  ~ Forall (fun row => In (py_join tab row) (console (snd failed_export)))
           (("ABE" :: ["1KB"]) :: metric_rows [case_of_size 1]).
Proof.
  split; [vm_compute; reflexivity|]. split; [reflexivity|].
  split; [vm_compute; reflexivity|]. split; [vm_compute; reflexivity|].
  intros Hall. apply Forall_inv in Hall.
  vm_compute in Hall. destruct Hall as [Hrow|[]]. discriminate Hrow.
Qed.

(* ================================================================= *)
(** * Part IV: further properties of the harness *)
(* ================================================================= *)

(** ** The synthetic payload *)


(** ** The resource monitor *)

Section MonitorUse.

Context {PK MSK Key Ctxt Val CapSt : Type}.
Variable env : Env.

Let World : Type := @World PK MSK Key Ctxt Val CapSt.

(** X2: for a resident size below [2^53] bytes [get_memory_usage] does
    not raise and returns a float that is exactly the size divided by
    1024, hence not below zero; it consumes one memory reading and leaves
    the rest of the world alone. *)
Theorem get_memory_usage_exact (self : PerformanceMonitor) (w : World) :
  0 <= env_rss env (rss_queries w) < 2 ^ 53 ->
  exists kb,
    get_memory_usage env self w = (inr kb, snd (Process_memory_rss env w))
    /\ is_exactly_over_1024 kb (env_rss env (rss_queries w)) = true
    /\ fle f0 kb = true.
Proof.
  intros [Hlow Hhigh].
  unfold get_memory_usage, bind, lift. cbn [Process_memory_rss fst snd].
  destruct (Z.eq_dec (env_rss env (rss_queries w)) 0) as [Hzero|Hpos].
  - rewrite Hzero. exists f0. repeat split.
  - destruct (int_div_1024_exact (env_rss env (rss_queries w)) ltac:(lia))
      as (m & d & Hd & Hm & Hdiv).
    rewrite Hdiv. eexists. split; [reflexivity|]. split; [|reflexivity].
    cbn [is_exactly_over_1024 cond_Zopp].
    replace (0 <=? - (10 + d)) with false by (symmetry; apply Z.leb_gt; lia).
    apply Z.eqb_eq. rewrite Hm, Z.opp_involutive, Z.pow_add_r by lia.
    change (2 ^ 10) with 1024. lia.
Qed.

(** X3: a phase that calls [start_monitoring] and then
    [get_cpu_percent_isolated] measures against the baseline it has just
    captured, whatever the monitor held before: the value is the
    process-level reading of the second of its two queries when that is
    strictly positive, and otherwise the rise of the system-wide reading
    since the baseline, clamped to [0, 100].  The zero of the branch
    without a baseline is never what such a phase returns by default. *)
Theorem start_then_measure (self : PerformanceMonitor) (w : World) :
  let baseline := env_system_cpu env (system_cpu_queries w) in
  let after := env_system_cpu env (S (system_cpu_queries w)) in
  let process_cpu := env_process_cpu env (S (process_cpu_queries w)) in
  exists started w1,
    start_monitoring env self w = (inr started, w1)
    /\ system_cpu_before started = Some baseline
    /\ fst (get_cpu_percent_isolated env started w1)
       = inr (if flt f0 process_cpu then process_cpu
              else py_min (py_max f0 (fsub after baseline)) f100,
              {| system_cpu_before := Some baseline;
                 system_cpu_after := Some after |})
    /\ process_cpu_queries (snd (get_cpu_percent_isolated env started w1))
       = S (S (process_cpu_queries w))
    /\ system_cpu_queries (snd (get_cpu_percent_isolated env started w1))
       = S (S (system_cpu_queries w)).
Proof.
  intros baseline after process_cpu.
  eexists _, _. split; [reflexivity|]. split; [reflexivity|].
  unfold get_cpu_percent_isolated, bind. cbn.
  fold baseline after process_cpu.
  destruct (flt f0 process_cpu); repeat split.
Qed.

End MonitorUse.

(** ** The benchmark case, whatever its outcome *)

Section CaseFrame.

Context {PK MSK Key Ctxt Val CapSt : Type}.
Context `{!EqDecision Val}.
Variable env : Env.
Variable cpabe : @Capability PK MSK Key Ctxt Val CapSt.

Let World : Type := @World PK MSK Key Ctxt Val CapSt.
Let CapEvent : Type := @CapEvent PK MSK Key Ctxt Val.

Ltac unfold_run :=
  unfold run_performance_test, keygen, group_random, encrypt, decrypt, cap_call, bind,
    get_memory_usage, start_monitoring, get_cpu_percent_isolated,
    PerformanceMonitor_init, gc_collect, time_sleep, time_time, Process_memory_rss,
    Process_cpu_percent, psutil_cpu_percent, lift, ret.

Ltac reduce_run :=
  cbn -[fsub py_max py_min flt f0 f100 int_div_1024 bool_decide generate_test_data
        Nat.add Nat.leb].

Ltac split_run :=
  match goal with
  | |- context [cap_keygen ?c ?a1 ?a2 ?a3 ?s] =>
      destruct (cap_keygen c a1 a2 a3 s) as [[?e|?key] ?st]
  | |- context [cap_random ?c ?s] =>
      destruct (cap_random c s) as [[?e|?msg] ?st]
  | |- context [cap_encrypt ?c ?a1 ?a2 ?a3 ?s] =>
      destruct (cap_encrypt c a1 a2 a3 s) as [[?e|?ctxt] ?st]
  | |- context [cap_decrypt ?c ?a1 ?a2 ?a3 ?s] =>
      destruct (cap_decrypt c a1 a2 a3 s) as [[?e|?rec_msg] ?st]
  | |- context [int_div_1024 ?rss] =>
      destruct (int_div_1024 rss) as [?e|?memory] eqn:?Hmemory
  | |- context [if flt f0 ?cpu then _ else _] =>
      destruct (flt f0 cpu) eqn:?Hcpu
  end.

(** What a case leaves alone, and what it may add to the log of the
    capability. *)
Lemma run_performance_test_frame (pk : PK) (msk : MSK) (size : Z) (w : World) :
  let w' := snd (run_performance_test env cpabe pk msk size w) in
  console w' = console w /\ disk w' = disk w /\ write_attempts w' = write_attempts w
  /\ exists calls : list CapEvent,
       cap_log w' = cap_log w ++ calls
       /\ (length calls <= 4)%nat
       /\ Forall (case_call pk msk) calls.
Proof.
  unfold_run.
  repeat (reduce_run; split_run).
  all: reduce_run; rewrite <- ?app_assoc; cbn [app].
  all: split; [reflexivity|]; split; [reflexivity|]; split; [reflexivity|].
  all: eexists; split; [reflexivity|].
  all: split; [cbn [length]; lia|].
  all: repeat (apply Forall_cons; split; [cbn; auto|]); apply Forall_nil_2.
Qed.

(** The queries a case makes, by the point it has reached. *)
Lemma run_performance_test_queries (pk : PK) (msk : MSK) (size : Z) (w : World) :
  let run := run_performance_test env cpabe pk msk size w in
  (process_cpu_queries w < process_cpu_queries (snd run) <= process_cpu_queries w + 5
   /\ system_cpu_queries w <= system_cpu_queries (snd run) <= system_cpu_queries w + 4
   /\ rss_queries w <= rss_queries (snd run) <= rss_queries w + 4
   /\ clock_queries w <= clock_queries (snd run) <= clock_queries w + 4)%nat
  /\ (forall r, fst run = inr r ->
        process_cpu_queries (snd run) = (process_cpu_queries w + 5)%nat
        /\ system_cpu_queries (snd run) = (system_cpu_queries w + 4)%nat
        /\ rss_queries (snd run) = (rss_queries w + 4)%nat
        /\ clock_queries (snd run) = (clock_queries w + 4)%nat).
Proof.
  unfold_run.
  repeat (reduce_run; split_run).
  all: reduce_run; split; [lia|]; intros r Hr; try discriminate Hr; lia.
Qed.

End CaseFrame.

(** ** Printing *)

Section Console.

Context {PK MSK Key Ctxt Val CapSt : Type}.
Context `{!EqDecision Val}.
Variable env : Env.
Variable cpabe : @Capability PK MSK Key Ctxt Val CapSt.

Let World : Type := @World PK MSK Key Ctxt Val CapSt.
Let CapEvent : Type := @CapEvent PK MSK Key Ctxt Val.

Lemma printed_app (lines1 lines2 : list string) (w : World) :
  printed lines2 (printed lines1 w) = printed (lines1 ++ lines2) w.
Proof. unfold printed. cbn. now rewrite app_assoc. Qed.

Lemma printed_nil (w : World) : printed [] w = w.
Proof. destruct w. unfold printed. cbn. now rewrite app_nil_r. Qed.

Lemma print_printed (line : string) (w : World) :
  print line w = (inr tt, printed [line] w).
Proof. reflexivity. Qed.

Lemma for_each_print {A : Type} (line : A -> string) (xs : list A) :
  forall w : World,
    for_each xs (fun x => print (line x)) w = (inr tt, printed (map line xs) w).
Proof.
  induction xs as [|x xs IH]; intros w; cbn [for_each map].
  - unfold ret. now rewrite printed_nil.
  - unfold bind. rewrite print_printed, IH, printed_app. reflexivity.
Qed.

(** *** The suite *)

(** One iteration: the progress line, the case, and the two result lines
    and the rule, or the error line. *)
Lemma benchmark_body_world (pk : PK) (msk : MSK) (size : Z)
    (all_results : list CaseResult) (w : World) :
  let run := run_performance_test env cpabe pk msk size (printed [testing_line size] w) in
  snd (benchmark_body env cpabe pk msk size all_results w)
  = printed (tail (case_lines size (fst run))) (snd run).
Proof.
  unfold benchmark_body, bind, try_except. rewrite print_printed.
  destruct (run_performance_test _ _ _ _ _ _) as [[e|r] w1]; cbv beta iota.
  - rewrite print_printed. reflexivity.
  - rewrite !print_printed. unfold ret. cbn [fst snd case_lines tail].
    now rewrite !printed_app.
Qed.

(** The world the suite leaves does not depend on the results it
    started with. *)
Lemma benchmark_loop_world (pk : PK) (msk : MSK) (sizes : list Z) :
  forall (all_results : list CaseResult) (w : World),
    snd (benchmark_loop env cpabe pk msk sizes all_results w)
    = snd (benchmark_loop env cpabe pk msk sizes [] w).
Proof.
  induction sizes as [|size sizes IH]; intros all_results w; [reflexivity|].
  cbn [benchmark_loop]. unfold bind.
  rewrite (benchmark_body_outcome env cpabe pk msk size all_results w).
  rewrite (benchmark_body_outcome env cpabe pk msk size [] w).
  rewrite IH. symmetry. apply IH.
Qed.

Lemma benchmark_loop_frame (pk : PK) (msk : MSK) (sizes : list Z) :
  forall (all_results : list CaseResult) (w : World),
    let w' := snd (benchmark_loop env cpabe pk msk sizes all_results w) in
    console w' = console w ++ suite_lines sizes (case_outcomes env cpabe pk msk sizes w)
    /\ disk w' = disk w /\ write_attempts w' = write_attempts w
    /\ exists calls : list CapEvent,
         cap_log w' = cap_log w ++ calls
         /\ (length calls <= 4 * length sizes)%nat
         /\ Forall (case_call pk msk) calls.
Proof.
  induction sizes as [|size sizes IH]; intros all_results w.
  - cbn. rewrite app_nil_r. do 3 (split; [reflexivity|]).
    exists []. rewrite app_nil_r. split; [reflexivity|]. split; [cbn; lia|constructor].
  - cbn [benchmark_loop case_outcomes suite_lines]. unfold bind.
    rewrite benchmark_body_outcome.
    specialize (IH (all_results ++
                    successes [fst (run_performance_test env cpabe pk msk size
                                      (snd (print (testing_line size) w)))])
                   (snd (benchmark_body env cpabe pk msk size [] w))).
    cbv zeta in IH. destruct IH as (Hconsole & Hdisk & Hwrite & calls & Hlog & Hlen & Hcalls).
    rewrite Hconsole, Hdisk, Hwrite, Hlog.
    rewrite benchmark_body_world. rewrite print_printed. cbn [snd].
    destruct (run_performance_test_frame env cpabe pk msk size (printed [testing_line size] w))
      as (Hc1 & Hd1 & Hw1 & calls1 & Hl1 & Hn1 & Hp1).
    cbv zeta in *.
    set (w1 := printed [testing_line size] w) in *.
    unfold printed. cbn [console disk write_attempts cap_log].
    rewrite Hc1, Hd1, Hw1, Hl1. subst w1. cbn [printed console disk write_attempts cap_log].
    split; [|split; [reflexivity|split; [reflexivity|]]].
    + rewrite <- !app_assoc. f_equal.
    + exists (calls1 ++ calls). rewrite app_assoc. split; [reflexivity|].
      split; [rewrite length_app; cbn [length]; unfold CapEvent in *; lia|].
      apply Forall_app. now split.
Qed.

End Console.

(** ** The case and the suite: what they touch *)

Lemma cpu_fallback_range (process_cpu baseline after : float) :
  fle f0 (cpu_fallback process_cpu (Some baseline) after) = true
  /\ (flt f100 process_cpu = false ->
      fle (cpu_fallback process_cpu (Some baseline) after) f100 = true).
Proof.
  unfold cpu_fallback. destruct (flt f0 process_cpu) eqn:Hpositive.
  - split; [now apply flt_fle|].
    intros Hle. apply flt_false_fle; [assumption|discriminate|].
    now apply (flt_not_nan f0).
  - split; [apply clamp_range|intros _; apply clamp_range].
Qed.

Lemma suite_lines_length (sizes : list Z) :
  forall outcomes : list (exn + CaseResult),
    length outcomes = length sizes ->
    length (suite_lines sizes outcomes)
    = (2 * length sizes + 2 * length (successes outcomes))%nat.
Proof.
  induction sizes as [|size sizes IH]; intros [|o outcomes] Hlen;
    try discriminate; [reflexivity|].
  cbn [suite_lines]. rewrite length_app, IH by (cbn in Hlen; lia).
  unfold successes. destruct o; cbn [omap list_omap case_lines length]; lia.
Qed.

Section CaseAndSuite.

Context {PK MSK Key Ctxt Val CapSt : Type}.
Context `{!EqDecision Val}.
Variable env : Env.
Variable cpabe : @Capability PK MSK Key Ctxt Val CapSt.

Let World : Type := @World PK MSK Key Ctxt Val CapSt.
Let CapEvent : Type := @CapEvent PK MSK Key Ctxt Val.

(** X4: whatever its outcome, a case prints nothing, attempts no
    write and leaves the disk as it is; it reads the process-level
    counter at least once and at most five times, and each of the
    system-wide counter, the memory and the clock at most four times. *)
Theorem case_touches_neither_console_nor_disk (pk : PK) (msk : MSK) (size : Z)
    (w : World) :
  let w' := snd (run_performance_test env cpabe pk msk size w) in
  console w' = console w
  /\ disk w' = disk w
  /\ write_attempts w' = write_attempts w
  /\ (process_cpu_queries w < process_cpu_queries w' <= process_cpu_queries w + 5)%nat
  /\ (system_cpu_queries w <= system_cpu_queries w' <= system_cpu_queries w + 4)%nat
  /\ (rss_queries w <= rss_queries w' <= rss_queries w + 4)%nat
  /\ (clock_queries w <= clock_queries w' <= clock_queries w + 4)%nat.
Proof.
  intros w'.
  destruct (run_performance_test_frame env cpabe pk msk size w) as (Hc & Hd & Hw & _).
  destruct (run_performance_test_queries env cpabe pk msk size w) as [Hq _].
  repeat split; try assumption; apply Hq.
Qed.

(** X5: whatever its outcome, a case makes at most four calls to the
    capability, each with the keys it was given: a key generation for
    the attributes ONE, TWO and THREE, a draw, an encryption under the
    fixed policy or a decryption.  It never calls [setup]. *)
Theorem case_calls_follow_protocol (pk : PK) (msk : MSK) (size : Z) (w : World) :
  exists calls : list CapEvent,
    cap_log (snd (run_performance_test env cpabe pk msk size w)) = cap_log w ++ calls
    /\ (length calls <= 4)%nat
    /\ Forall (case_call pk msk) calls
    /\ Forall (fun call => forall r, call <> EvSetup r) calls.
Proof.
  destruct (run_performance_test_frame env cpabe pk msk size w)
    as (_ & _ & _ & calls & Hlog & Hlen & Hcalls).
  exists calls. repeat split; try assumption.
  eapply Forall_impl; [exact Hcalls|].
  intros call Hcall r ->. exact Hcall.
Qed.

(** X6: a case that completes has read the process-level counter five
    times and each of the system-wide counter, the memory and the clock
    four times. *)
Theorem case_query_footprint (pk : PK) (msk : MSK) (size : Z) (w w' : World)
    (r : CaseResult) :
  run_performance_test env cpabe pk msk size w = (inr r, w') ->
  process_cpu_queries w' = (process_cpu_queries w + 5)%nat
  /\ system_cpu_queries w' = (system_cpu_queries w + 4)%nat
  /\ rss_queries w' = (rss_queries w + 4)%nat
  /\ clock_queries w' = (clock_queries w + 4)%nat.
Proof.
  intros Hrun.
  destruct (run_performance_test_queries env cpabe pk msk size w) as [_ Hq].
  cbv zeta in Hq. rewrite Hrun in Hq. exact (Hq r eq_refl).
Qed.

(** X7: the CPU sample of each phase of a completed case is measured
    against the baseline captured at the start of that phase: it is the
    process-level reading taken after the call when that is strictly
    positive, and otherwise the rise of the system-wide reading across
    the call, clamped to [0, 100].  The process-level readings of the
    constructor and of the two [start_monitoring] calls are discarded.
    Neither sample is below zero or NaN, and a sample is above 100 only
    as a process-level reading. *)
Theorem case_cpu_samples (pk : PK) (msk : MSK) (size : Z) (w w' : World)
    (r : CaseResult) :
  run_performance_test env cpabe pk msk size w = (inr r, w') ->
  let p := fun k => env_process_cpu env (k + process_cpu_queries w) in
  let s := fun k => env_system_cpu env (k + system_cpu_queries w) in
  cpu_percent (encryption r) = cpu_fallback (p 2%nat) (Some (s 0%nat)) (s 1%nat)
  /\ cpu_percent (decryption r) = cpu_fallback (p 4%nat) (Some (s 2%nat)) (s 3%nat)
  /\ fle f0 (cpu_percent (encryption r)) = true
  /\ fle f0 (cpu_percent (decryption r)) = true
  /\ (flt f100 (p 2%nat) = false -> fle (cpu_percent (encryption r)) f100 = true)
  /\ (flt f100 (p 4%nat) = false -> fle (cpu_percent (decryption r)) f100 = true).
Proof.
  intros Hrun p s.
  destruct (run_performance_test_result _ _ _ _ _ _ _ _ Hrun)
    as (key & msg & ctxt & rec_msg & m0 & m1 & m2 & m3 & _ & _ & _ & _ & _ & ->).
  cbn [encryption decryption cpu_percent]. subst p s. cbn [Nat.add].
  split; [reflexivity|]. split; [reflexivity|].
  split; [apply cpu_fallback_range|]. split; [apply cpu_fallback_range|].
  split; apply cpu_fallback_range.
Qed.

(** X8: what the suite prints and what it leaves alone.  For every
    requested size, in order, it prints the progress line and then
    either the encryption line, the decryption line and the rule of a
    completed case or the one error line of a case that raised: two lines
    per size and two more per result.  It attempts no write and leaves
    the disk as it is. *)
Theorem suite_console_trace (pk : PK) (msk : MSK) (sizes : list Z)
    (all_results : list CaseResult) (w : World) :
  let w' := snd (benchmark_loop env cpabe pk msk sizes all_results w) in
  let outcomes := case_outcomes env cpabe pk msk sizes w in
  console w' = console w ++ suite_lines sizes outcomes
  /\ length (suite_lines sizes outcomes)
     = (2 * length sizes + 2 * length (successes outcomes))%nat
  /\ disk w' = disk w
  /\ write_attempts w' = write_attempts w.
Proof.
  intros w' outcomes.
  destruct (benchmark_loop_frame env cpabe pk msk sizes all_results w)
    as (Hconsole & Hdisk & Hwrite & _).
  split; [exact Hconsole|]. split; [|split; assumption].
  apply suite_lines_length. apply case_outcomes_length.
Qed.

(** X9: the suite over a list of sizes followed by another is the suite
    over the first followed by the suite over the second, started in the
    world and with the results the first has left: a case is not
    affected by the sizes that come after it. *)
Theorem suite_of_concatenation (pk : PK) (msk : MSK) (sizes1 sizes2 : list Z) :
  forall (all_results : list CaseResult) (w : World),
    benchmark_loop env cpabe pk msk (sizes1 ++ sizes2) all_results w
    = benchmark_loop env cpabe pk msk sizes2
        (all_results ++ successes (case_outcomes env cpabe pk msk sizes1 w))
        (snd (benchmark_loop env cpabe pk msk sizes1 [] w))
    /\ case_outcomes env cpabe pk msk (sizes1 ++ sizes2) w
       = case_outcomes env cpabe pk msk sizes1 w
         ++ case_outcomes env cpabe pk msk sizes2
              (snd (benchmark_loop env cpabe pk msk sizes1 [] w)).
Proof.
  induction sizes1 as [|size sizes1 IH]; intros all_results w.
  - cbn. now rewrite app_nil_r.
  - cbn [app benchmark_loop case_outcomes]. unfold bind.
    pose proof (benchmark_body_outcome env cpabe pk msk size all_results w) as Hacc.
    pose proof (benchmark_body_outcome env cpabe pk msk size [] w) as Hnil.
    set (o := fst (run_performance_test env cpabe pk msk size
                     (snd (print (testing_line size) w)))) in *.
    set (wb := snd (benchmark_body env cpabe pk msk size [] w)) in *.
    rewrite Hacc, Hnil. cbv beta iota. cbn [app].
    rewrite (benchmark_loop_world env cpabe pk msk sizes1 (successes [o]) wb).
    destruct (IH (all_results ++ successes [o]) wb) as [Hloop Hcases].
    rewrite Hloop, Hcases. split; [|reflexivity].
    f_equal. rewrite <- app_assoc. f_equal.
    unfold successes. cbn [omap list_omap]. destruct o; reflexivity.
Qed.

End CaseAndSuite.

(** ** The labelling and the report matrix, whatever the sizes *)

Lemma label_of_size_error (size : Z) (e : exn) :
  label_of_size size = inl e ->
  e = division_overflow /\ label_division_defined size = false.
Proof.
  intros Herr.
  destruct (label_division_defined size) eqn:Hdef.
  - destruct (label_of_size_defined size Hdef) as [label Hlabel]. congruence.
  - split; [|reflexivity].
    unfold label_division_defined in Hdef. apply orb_false_elim in Hdef as [Hbig Hdiv].
    unfold label_of_size in Herr.
    replace (1024 <=? size) with true in Herr
      by (symmetry; apply Z.leb_le; apply Z.ltb_ge in Hbig; lia).
    unfold int_div_1024 in *.
    destruct (binary_normalize prec emax size (-10) false); try discriminate Hdiv.
    cbn [ebind] in Herr. now injection Herr as <-.
Qed.

Lemma labels_of_sizes_error (sizes : list Z) (e : exn) :
  labels_of_sizes sizes = inl e ->
  e = division_overflow
  /\ Exists (fun size => label_division_defined size = false) sizes.
Proof.
  induction sizes as [|size sizes IH]; [discriminate|].
  cbn [labels_of_sizes].
  destruct (label_of_size size) as [e1|label] eqn:Hlabel; cbn [ebind].
  - intros [= <-]. destruct (label_of_size_error _ _ Hlabel) as [-> Hdef].
    split; [reflexivity|now apply Exists_cons_hd].
  - destruct (labels_of_sizes sizes) as [e2|labels]; cbn [ebind]; [|discriminate].
    intros [= <-]. destruct (IH eq_refl) as [-> Hsome].
    split; [reflexivity|now apply Exists_cons_tl].
Qed.

Lemma labels_of_sizes_each (sizes : list Z) : forall labels : list string,
  labels_of_sizes sizes = inr labels ->
  Forall2 (fun size label => label_of_size size = inr label) sizes labels.
Proof.
  induction sizes as [|size sizes IH]; intros labels.
  - intros [= <-]. constructor.
  - cbn [labels_of_sizes].
    destruct (label_of_size size) as [e1|label] eqn:Hlabel; cbn [ebind]; [discriminate|].
    destruct (labels_of_sizes sizes) as [e2|rest]; cbn [ebind]; [discriminate|].
    intros [= <-]. constructor; [assumption|now apply IH].
Qed.



Lemma csv_data_built (rs : list CaseResult) (matrix : list (list string)) :
  csv_data rs = inr matrix ->
  exists labels,
    matrix = ("ABE" :: labels) :: metric_rows rs
    /\ Forall2 (fun r label => label_of_size (data_size_kb r) = inr label) rs labels.
Proof.
  rewrite csv_data_rows, column_labels_sizes.
  destruct (labels_of_sizes (map data_size_kb rs)) as [e|labels] eqn:Hlabels;
    cbn [ebind]; [discriminate|].
  intros [= <-]. exists labels. split; [reflexivity|].
  apply labels_of_sizes_each in Hlabels. now apply Forall2_fmap_l in Hlabels.
Qed.

Lemma csv_data_error (rs : list CaseResult) (e : exn) :
  csv_data rs = inl e ->
  e = division_overflow
  /\ Exists (fun r => label_division_defined (data_size_kb r) = false) rs.
Proof.
  rewrite csv_data_rows, column_labels_sizes.
  destruct (labels_of_sizes (map data_size_kb rs)) as [e1|labels] eqn:Hlabels;
    cbn [ebind]; [|discriminate].
  intros [= <-]. destruct (labels_of_sizes_error _ _ Hlabels) as [-> Hsome].
  split; [reflexivity|]. now apply Exists_fmap in Hsome.
Qed.

Lemma csv_data_defined (rs : list CaseResult) :
  Forall (fun r => label_division_defined (data_size_kb r) = true) rs ->
  exists matrix, csv_data rs = inr matrix.
Proof.
  intros Hdef. destruct (csv_data rs) as [e|matrix] eqn:Hcsv; [|now exists matrix].
  destruct (csv_data_error _ _ Hcsv) as [_ Hsome].
  apply Exists_exists in Hsome as (r & Hin & Hr).
  rewrite Forall_forall in Hdef. specialize (Hdef r Hin). congruence.
Qed.

Lemma map_lookup_Some {A B : Type} (f : A -> B) (xs : list A) :
  forall (j : nat) (x : A), xs !! j = Some x -> map f xs !! j = Some (f x).
Proof.
  induction xs as [|x0 xs IH]; intros [|j] x Hx; try discriminate.
  - now injection Hx as <-.
  - exact (IH j x Hx).
Qed.

(** X11: whenever the report matrix is built it is rectangular: eight
    rows, the header and the seven metrics, each with one more cell than
    there are results; its first column holds the row titles. *)
Theorem csv_data_rectangular (rs : list CaseResult) (matrix : list (list string)) :
  csv_data rs = inr matrix ->
  length matrix = 8%nat
  /\ Forall (fun row => length row = S (length rs)) matrix
  /\ matrix_column 0 matrix = map Some row_titles.
Proof.
  intros Hcsv. destruct (csv_data_built _ _ Hcsv) as (labels & -> & Heach).
  apply Forall2_length in Heach.
  split; [reflexivity|]. split; [|reflexivity].
  unfold metric_rows.
  repeat (apply Forall_cons; split; [cbn [length]; rewrite ?length_map; congruence|]).
  apply Forall_nil_2.
Qed.

(** X12: the report is the transpose of the results: for the result at
    position [j], column [j + 1] of the matrix holds the label of its
    payload size and then its seven cells, and nothing of any other
    result. *)
Theorem csv_data_column (rs : list CaseResult) (matrix : list (list string))
    (j : nat) (r : CaseResult) :
  csv_data rs = inr matrix ->
  rs !! j = Some r ->
  exists label,
    label_of_size (data_size_kb r) = inr label
    /\ matrix_column (S j) matrix = map Some (label :: metric_cells r).
Proof.
  intros Hcsv Hr. destruct (csv_data_built _ _ Hcsv) as (labels & -> & Heach).
  destruct (Forall2_lookup_l _ _ _ _ _ Heach Hr) as (label & Hlabel & Hsize).
  exists label. split; [exact Hsize|].
  unfold matrix_column, metric_rows, metric_cells.
  cbn [map]. change (("ABE" :: labels) !! S j) with (labels !! j).
  rewrite Hlabel.
  repeat match goal with
         | |- context [(?title :: map ?f rs) !! S j] =>
             change ((title :: map f rs) !! S j) with (map f rs !! j);
             rewrite (map_lookup_Some f rs j r Hr)
         end.
  reflexivity.
Qed.

(** ** The export and the run *)

Section Run.

Context {PK MSK Key Ctxt Val CapSt : Type}.
Context `{!EqDecision Val}.
Variable env : Env.
Variable cpabe : @Capability PK MSK Key Ctxt Val CapSt.

Let World : Type := @World PK MSK Key Ctxt Val CapSt.
Let CapEvent : Type := @CapEvent PK MSK Key Ctxt Val.

(** The export of a matrix that has been built: one write attempt, and
    then the lines its outcome decides. *)
Lemma export_results_to_csv_built (rs : list CaseResult) (filename : string)
    (matrix : list (list string)) (w : World) :
  rs <> [] ->
  csv_data rs = inr matrix ->
  export_results_to_csv env rs filename w
  = (inr tt,
     printed (export_console (env_write_error env (write_attempts w)) filename rs matrix)
             (snd (write_csv env (csv_path_of filename) matrix w))).
Proof.
  intros Hrs Hcsv. destruct rs as [|r rs]; [contradiction|].
  unfold export_results_to_csv, bind, lift, try_except, export_console.
  rewrite Hcsv. cbv beta iota. fold (csv_path_of filename).
  unfold write_csv.
  destruct (env_write_error env (write_attempts w)) as [msg|]; cbv beta iota.
  - reflexivity.
  - rewrite !print_printed. rewrite for_each_print. cbn [snd].
    rewrite !printed_app. reflexivity.
Qed.

(** X13: when the matrix has been built and the write succeeds,
    [export_results_to_csv] returns normally after one write attempt;
    the file at the fixed directory joined with the file name holds
    exactly the matrix, and the console gets the path line, the heading
    and then every row of the matrix, its cells joined by tabs. *)
Theorem export_writes_then_renders (rs : list CaseResult) (filename : string)
    (matrix : list (list string)) (w : World) :
  rs <> [] ->
  csv_data rs = inr matrix ->
  env_write_error env (write_attempts w) = None ->
  exists w',
    export_results_to_csv env rs filename w = (inr tt, w')
    /\ disk w' = (csv_path_of filename, matrix) :: disk w
    /\ console w' = console w ++ export_lines filename matrix
    /\ write_attempts w' = S (write_attempts w).
Proof.
  intros Hrs Hcsv Hwrite.
  rewrite (export_results_to_csv_built rs filename matrix w Hrs Hcsv).
  eexists. split; [reflexivity|].
  destruct rs as [|r rs]; [contradiction|].
  unfold write_csv, export_console. rewrite Hwrite. cbn. repeat split.
Qed.

Lemma export_error_has_undefined_division (rs : list CaseResult) (filename : string)
    (e : exn) (w w' : World) :
  export_results_to_csv env rs filename w = (inl e, w') ->
  Exists (fun r => label_division_defined (data_size_kb r) = false) rs.
Proof.
  destruct rs as [|r rs]; [discriminate|].
  destruct (csv_data (r :: rs)) as [e1|matrix] eqn:Hcsv.
  - intros _. now destruct (csv_data_error _ _ Hcsv).
  - rewrite (export_results_to_csv_built (r :: rs) filename matrix w);
      [discriminate|discriminate|exact Hcsv].
Qed.



(** *** The run *)

Lemma kept_sizes_Forall (P : Z -> Prop) (sizes : list Z) :
  forall outcomes : list (exn + CaseResult),
    Forall P sizes -> Forall P (kept_sizes sizes outcomes).
Proof.
  unfold kept_sizes.
  induction sizes as [|size sizes IH]; intros [|o outcomes] Hall;
    cbn [zip zip_with omap]; try constructor.
  apply Forall_cons in Hall as [Hsize Hall].
  cbn [snd fst]. destruct o; [now apply IH|].
  apply Forall_cons. split; [assumption|now apply IH].
Qed.

(** The run after a successful [setup]: the banner, the suite, the
    export of its results and the summary. *)
Lemma run_performance_scenarios_on_unfold (sizes : list Z) (w : World)
    (pk : PK) (msk : MSK) (st : CapSt) :
  cap_setup cpabe (cap_state w) = (inr (pk, msk), st) ->
  let w1 := printed banner_lines (snd (setup cpabe w)) in
  let results := successes (case_outcomes env cpabe pk msk sizes w1) in
  let w2 := snd (benchmark_loop env cpabe pk msk sizes [] w1) in
  run_performance_scenarios_on env cpabe sizes w
  = match export_results_to_csv env results "abe_performance_results.csv" w2 with
    | (inl e, w3) => (inl e, w3)
    | (inr _, w3) => (inr tt, printed (summary_lines results) w3)
    end.
Proof.
  intros Hsetup w1 results w2.
  unfold run_performance_scenarios_on, bind.
  unfold setup at 1, cap_call at 1. rewrite Hsetup. cbv beta iota.
  rewrite !print_printed, !printed_app. cbn [app].
  assert (Hw : printed banner_lines (snd (setup cpabe w))
               = printed banner_lines
                   {| process_cpu_queries := process_cpu_queries w;
                      system_cpu_queries := system_cpu_queries w;
                      rss_queries := rss_queries w;
                      clock_queries := clock_queries w;
                      write_attempts := write_attempts w;
                      cap_state := st;
                      cap_log := cap_log w ++ [EvSetup (inr (pk, msk))];
                      console := console w;
                      disk := disk w |}).
  { unfold setup, cap_call. now rewrite Hsetup. }
  fold banner_lines. rewrite <- Hw. fold w1.
  pose proof (benchmark_loop_outcomes env cpabe pk msk sizes [] w1) as Hloop.
  cbn [app] in Hloop. fold results in Hloop. fold w2.
  destruct (benchmark_loop env cpabe pk msk sizes [] w1) as [o w2'] eqn:Hrun.
  cbn [fst] in Hloop. subst o. subst w2. cbn [snd].
  destruct (export_results_to_csv env results "abe_performance_results.csv" w2')
    as [[e|[]] w3]; [reflexivity|].
  rewrite print_printed. unfold summary_lines.
  destruct results as [|r rs].
  - reflexivity.
  - rewrite print_printed, for_each_print, !printed_app. reflexivity.
Qed.

Lemma run_performance_scenarios_on_returns (sizes : list Z) (w : World)
    (pk : PK) (msk : MSK) (st : CapSt) :
  cap_setup cpabe (cap_state w) = (inr (pk, msk), st) ->
  Forall (fun size => label_division_defined size = true) sizes ->
  fst (run_performance_scenarios_on env cpabe sizes w) = inr tt.
Proof.
  intros Hsetup Hsizes.
  rewrite (run_performance_scenarios_on_unfold sizes w pk msk st Hsetup). cbv zeta.
  set (w1 := printed banner_lines (snd (setup cpabe w))).
  set (results := successes (case_outcomes env cpabe pk msk sizes w1)).
  destruct (export_results_to_csv env results "abe_performance_results.csv" _)
    as [[e|[]] w3] eqn:Hexport; [|reflexivity].
  apply export_error_has_undefined_division in Hexport.
  apply Exists_exists in Hexport as (r & Hin & Hr).
  assert (Hall : Forall (fun size => label_division_defined size = true)
                        (map data_size_kb results)).
  { unfold results. rewrite case_outcomes_sizes. now apply kept_sizes_Forall. }
  rewrite Forall_map, Forall_forall in Hall. specialize (Hall r Hin).
  cbn beta in Hall. congruence.
Qed.

(** X16: a [setup] that raises ends the run at once: the exception
    leaves [run_performance_scenarios], nothing has been printed, no case
    has run, no query has been made and no file has been written. *)
Theorem setup_failure_is_fatal (sizes : list Z) (w : World) (e : exn) (st : CapSt) :
  cap_setup cpabe (cap_state w) = (inl e, st) ->
  exists w',
    run_performance_scenarios_on env cpabe sizes w = (inl e, w')
    /\ cap_log w' = cap_log w ++ [EvSetup (inl e)]
    /\ console w' = console w
    /\ disk w' = disk w
    /\ write_attempts w' = write_attempts w
    /\ process_cpu_queries w' = process_cpu_queries w
    /\ clock_queries w' = clock_queries w.
Proof.
  intros Hsetup. unfold run_performance_scenarios_on, bind, setup, cap_call.
  rewrite Hsetup. eexists. repeat split.
Qed.


(** X18: in a run whose [setup] succeeded the capability is set up
    once, first, and every later call is a call of a case made with the
    keys that [setup] returned: a key generation for the fixed attributes,
    a draw, an encryption under the fixed policy or a decryption; there
    are at most four per requested size.  The export and the summary call
    nothing. *)
Theorem run_calls_setup_once (sizes : list Z) (w : World)
    (pk : PK) (msk : MSK) (st : CapSt) :
  cap_setup cpabe (cap_state w) = (inr (pk, msk), st) ->
  exists calls : list CapEvent,
    cap_log (snd (run_performance_scenarios_on env cpabe sizes w))
    = cap_log w ++ EvSetup (inr (pk, msk)) :: calls
    /\ Forall (case_call pk msk) calls
    /\ (length calls <= 4 * length sizes)%nat.
Proof.
  intros Hsetup.
  rewrite (run_performance_scenarios_on_unfold sizes w pk msk st Hsetup). cbv zeta.
  set (w1 := printed banner_lines (snd (setup cpabe w))) in *.
  destruct (benchmark_loop_frame env cpabe pk msk sizes [] w1)
    as (_ & _ & _ & calls & Hlog & Hlen & Hcalls).
  cbv zeta in Hlog.
  set (w2 := snd (benchmark_loop env cpabe pk msk sizes [] w1)) in *.
  set (results := successes (case_outcomes env cpabe pk msk sizes w1)).
  assert (Hl1 : cap_log w1 = cap_log w ++ [EvSetup (inr (pk, msk))]).
  { unfold w1, setup, cap_call. now rewrite Hsetup. }
  rewrite Hl1, <- app_assoc in Hlog. cbn [app] in Hlog.
  exists calls. split; [|split; assumption].
  rewrite <- Hlog.
  destruct results as [|r rs]; [reflexivity|].
  destruct (csv_data (r :: rs)) as [e|matrix] eqn:Hcsv.
  - unfold export_results_to_csv, bind, lift. rewrite Hcsv. reflexivity.
  - rewrite (export_results_to_csv_built (r :: rs) _ matrix w2); [|discriminate|exact Hcsv].
    unfold write_csv. destruct (env_write_error env (write_attempts w2)); reflexivity.
Qed.

Lemma tested_sizes_defined :
  Forall (fun size => label_division_defined size = true)
         [1; 10; 100; 250; 500; 750; 1024; 5120; 7168; 10240].
Proof.
  repeat (apply Forall_cons; split; [vm_compute; reflexivity|]). apply Forall_nil_2.
Qed.

(** X19: [run_performance_scenarios], with the ten payload sizes it
    tests, returns normally whenever [setup] succeeds: whatever the cases
    do and whatever the disk answers, nothing raises after [setup]. *)
Theorem run_performance_scenarios_returns (w : World)
    (pk : PK) (msk : MSK) (st : CapSt) :
  cap_setup cpabe (cap_state w) = (inr (pk, msk), st) ->
  fst (run_performance_scenarios env cpabe w) = inr tt.
Proof.
  intros Hsetup. unfold run_performance_scenarios.
  exact (run_performance_scenarios_on_returns _ w pk msk st Hsetup tested_sizes_defined).
Qed.

End Run.

(** ** The entry point *)

Section EntryPoint.

Context {PK MSK Key Ctxt Val CapSt : Type}.
Context `{!EqDecision Val}.
Variable env : Env.
Variable cpabe : @Capability PK MSK Key Ctxt Val CapSt.

Let World : Type := @World PK MSK Key Ctxt Val CapSt.
Let CapEvent : Type := @CapEvent PK MSK Key Ctxt Val.

Ltac split_call :=
  match goal with
  | |- context [cap_setup ?c ?s] =>
      destruct (cap_setup c s) as [[?e|[?pk ?msk]] ?st]
  | |- context [cap_keygen ?c ?a1 ?a2 ?a3 ?s] =>
      destruct (cap_keygen c a1 a2 a3 s) as [[?e|?key] ?st]
  | |- context [cap_random ?c ?s] =>
      destruct (cap_random c s) as [[?e|?msg] ?st]
  | |- context [cap_encrypt ?c ?a1 ?a2 ?a3 ?s] =>
      destruct (cap_encrypt c a1 a2 a3 s) as [[?e|?ctxt] ?st]
  | |- context [cap_decrypt ?c ?a1 ?a2 ?a3 ?s] =>
      destruct (cap_decrypt c a1 a2 a3 s) as [[?e|?rec_msg] ?st]
  end.

Ltac reduce_world :=
  cbv beta iota;
  cbn [process_cpu_queries system_cpu_queries rss_queries clock_queries write_attempts
       cap_state cap_log console disk fst snd].

(** [main] is its round trip, then the lookup of [debug], then the
    verdict, the run and the trailer. *)
Lemma main_unfold (debug : option bool) (w : World) :
  main env cpabe debug w
  = match self_test cpabe w with
    | (inl e, w1) => (inl e, w1)
    | (inr (msg, rec_msg), w1) =>
        match debug with
        | None => (inl (Exception "NameError" "name 'debug' is not defined"), w1)
        | Some flag =>
            match run_performance_scenarios env cpabe
                    (printed (verdict_lines flag (bool_decide (rec_msg = msg))
                              ++ [newline +:+ "Starting performance testing scenarios..."])
                             w1) with
            | (inl e, w2) => (inl e, w2)
            | (inr _, w2) => (inr tt, printed trailer_lines w2)
            end
        end
    end.
Proof.
  unfold main, self_test, setup, keygen, group_random, encrypt, decrypt, cap_call,
    bind, lift, ret.
  generalize (run_performance_scenarios env cpabe). intros run.
  reduce_world.
  repeat (split_call; reduce_world; [reflexivity|]).
  destruct debug as [[|]|]; cbv beta iota; try reflexivity.
  - destruct (bool_decide (rec_msg = msg)); rewrite !print_printed, !printed_app;
      cbn [verdict_lines app];
      (destruct (run _) as [[e|[]] w2]; [reflexivity|]);
      rewrite !print_printed, !printed_app; reflexivity.
  - rewrite !print_printed. cbn [verdict_lines app].
    destruct (run _) as [[e|[]] w2]; [reflexivity|].
    rewrite !print_printed, !printed_app. reflexivity.
Qed.

Lemma self_test_frame (w : World) :
  let w1 := snd (self_test cpabe w) in
  console w1 = console w /\ disk w1 = disk w /\ write_attempts w1 = write_attempts w
  /\ process_cpu_queries w1 = process_cpu_queries w
  /\ exists calls : list CapEvent,
       cap_log w1 = cap_log w ++ calls /\ (1 <= length calls <= 5)%nat.
Proof.
  unfold self_test, setup, keygen, group_random, encrypt, decrypt, cap_call, bind, ret.
  reduce_world.
  repeat (split_call; reduce_world).
  all: rewrite <- ?app_assoc; cbn [app].
  all: do 4 (split; [reflexivity|]).
  all: eexists; split; [reflexivity|cbn [length]; lia].
Qed.

(** X20: when [main] is called with the module variable [debug]
    undefined, as it is when the module is imported and not run as a
    script, it makes its round trip through the capability and then
    raises [NameError]: it has printed nothing and the benchmark has not
    started. *)
Theorem main_without_debug (w w1 : World) (msg rec_msg : Val) :
  self_test cpabe w = (inr (msg, rec_msg), w1) ->
  main env cpabe None w
  = (inl (Exception "NameError" "name 'debug' is not defined"), w1)
  /\ console w1 = console w
  /\ write_attempts w1 = write_attempts w
  /\ process_cpu_queries w1 = process_cpu_queries w.
Proof.
  intros Htest. rewrite main_unfold, Htest.
  split; [reflexivity|].
  destruct (self_test_frame w) as (Hconsole & _ & Hwrite & Hcpu & _).
  cbv zeta in *. rewrite Htest in *. cbn [snd] in *. auto.
Qed.

(** X21: an exception raised by [setup], [keygen], the draw, [encrypt]
    or [decrypt] in the round trip of [main] leaves [main] as it is:
    nothing has been printed, and the benchmark has not started, whether
    [debug] is defined or not. *)
Theorem main_round_trip_failure (debug : option bool) (w w1 : World) (e : exn) :
  self_test cpabe w = (inl e, w1) ->
  main env cpabe debug w = (inl e, w1)
  /\ console w1 = console w
  /\ write_attempts w1 = write_attempts w
  /\ process_cpu_queries w1 = process_cpu_queries w.
Proof.
  intros Htest. rewrite main_unfold, Htest.
  split; [reflexivity|].
  destruct (self_test_frame w) as (Hconsole & _ & Hwrite & Hcpu & _).
  cbv zeta in *. rewrite Htest in *. cbn [snd] in *. auto.
Qed.

(** X22: with [debug] defined, a round trip that completed and a
    second [setup] that succeeds, [main] returns normally.  When [debug]
    is true it first prints its verdict, [Successful decryption.] exactly
    when the value decrypted is the value drawn and [Decryption failed.]
    otherwise, and when [debug] is false no verdict; a failed round trip
    does not stop it.  Then comes the line that announces the benchmark,
    what the run prints, and last the seven lines of the trailer. *)
Theorem main_returns (flag : bool) (w w1 : World) (msg rec_msg : Val)
    (pk : PK) (msk : MSK) (st : CapSt) :
  self_test cpabe w = (inr (msg, rec_msg), w1) ->
  cap_setup cpabe (cap_state w1) = (inr (pk, msk), st) ->
  let opening :=
    verdict_lines flag (bool_decide (rec_msg = msg))
    ++ [newline +:+ "Starting performance testing scenarios..."] in
  exists w',
    main env cpabe (Some flag) w = (inr tt, w')
    /\ console w'
       = console (snd (run_performance_scenarios env cpabe (printed opening w1)))
         ++ trailer_lines
    /\ exists run_lines,
         console (snd (run_performance_scenarios env cpabe (printed opening w1)))
         = console w ++ opening ++ banner_lines ++ run_lines.
Proof.
  intros Htest Hsetup opening.
  rewrite main_unfold, Htest. fold opening.
  assert (Hsetup' : cap_setup cpabe (cap_state (printed opening w1)) = (inr (pk, msk), st))
    by exact Hsetup.
  pose proof (run_performance_scenarios_on_returns env cpabe _ _ pk msk st Hsetup'
                tested_sizes_defined) as Hrun.
  fold (run_performance_scenarios env cpabe) in Hrun.
  destruct (self_test_frame w) as (Hconsole & _).
  cbv zeta in Hconsole. rewrite Htest in Hconsole. cbn [snd] in Hconsole.
  assert (Hlines : exists run_lines,
             console (snd (run_performance_scenarios env cpabe (printed opening w1)))
             = console w ++ opening ++ banner_lines ++ run_lines).
  { unfold run_performance_scenarios.
    rewrite (run_performance_scenarios_on_unfold env cpabe _ _ pk msk st Hsetup').
    cbv zeta.
    set (sizes := [1; 10; 100; 250; 500; 750; 1024; 5120; 7168; 10240]).
    set (w2 := printed banner_lines (snd (setup cpabe (printed opening w1)))).
    destruct (benchmark_loop_frame env cpabe pk msk sizes [] w2) as (Hc2 & _).
    cbv zeta in Hc2.
    assert (Hc1 : console w2 = console w ++ opening ++ banner_lines).
    { unfold w2, setup, cap_call. rewrite Hsetup'. cbn [snd printed console].
      now rewrite Hconsole, <- app_assoc. }
    rewrite Hc1 in Hc2.
    set (w3 := snd (benchmark_loop env cpabe pk msk sizes [] w2)) in *.
    set (results := successes (case_outcomes env cpabe pk msk sizes w2)).
    destruct results as [|r rs].
    - cbn [export_results_to_csv]. rewrite print_printed.
      cbn [snd printed console]. rewrite Hc2, <- !app_assoc. eexists. reflexivity.
    - destruct (csv_data (r :: rs)) as [e|matrix] eqn:Hcsv.
      + unfold export_results_to_csv, bind, lift. rewrite Hcsv. cbn [snd].
        rewrite Hc2, <- !app_assoc. eexists. reflexivity.
      + rewrite (export_results_to_csv_built env (r :: rs) _ matrix w3);
          [|discriminate|exact Hcsv].
        unfold write_csv. destruct (env_write_error env (write_attempts w3));
          cbn [snd printed console]; rewrite Hc2, <- !app_assoc; eexists; reflexivity. }
  destruct (run_performance_scenarios env cpabe (printed opening w1)) as [[e|[]] w2];
    [discriminate Hrun|].
  eexists. split; [reflexivity|]. split; [reflexivity|exact Hlines].
Qed.

End EntryPoint.

(* ================================================================= *)
(** * Part V: the further properties at work *)
(* ================================================================= *)

(** ** The payload and the monitor *)


(** The first memory reading of the idle machine, fifty million bytes. *)
Lemma get_memory_usage_exact_witness :
  0 <= env_rss idle_env (rss_queries fresh_world) < 2 ^ 53
  /\ exists kb,
       get_memory_usage idle_env fresh_monitor fresh_world
       = (inr kb, snd (Process_memory_rss idle_env fresh_world))
       /\ is_exactly_over_1024 kb (env_rss idle_env (rss_queries fresh_world)) = true
       /\ fle f0 kb = true.
Proof.
  assert (Hrss : 0 <= env_rss idle_env (rss_queries fresh_world) < 2 ^ 53)
    by (vm_compute; split; [discriminate|reflexivity]).
  split; [exact Hrss|].
  exact (get_memory_usage_exact idle_env fresh_monitor fresh_world Hrss).
Defined.

(** ** The report *)

(** Two results, of 1 KB and of 2 MB: eight rows of three cells. *)
Lemma csv_data_rectangular_witness :
  csv_data [case_of_size 1; case_of_size 2048]
  = inr (matrix_of [case_of_size 1; case_of_size 2048])
  /\ length (matrix_of [case_of_size 1; case_of_size 2048]) = 8%nat
  /\ Forall (fun row => length row = S (length [case_of_size 1; case_of_size 2048]))
            (matrix_of [case_of_size 1; case_of_size 2048])
  /\ matrix_column 0 (matrix_of [case_of_size 1; case_of_size 2048])
     = map Some row_titles.
Proof.
  assert (Hcsv : csv_data [case_of_size 1; case_of_size 2048]
                 = inr (matrix_of [case_of_size 1; case_of_size 2048]))
    by (vm_compute; reflexivity).
  split; [exact Hcsv|].
  exact (csv_data_rectangular [case_of_size 1; case_of_size 2048]
           (matrix_of [case_of_size 1; case_of_size 2048]) Hcsv).
Defined.

(** The column of the second of the two results. *)
Lemma csv_data_column_witness :
  csv_data [case_of_size 1; case_of_size 2048]
  = inr (matrix_of [case_of_size 1; case_of_size 2048])
  /\ [case_of_size 1; case_of_size 2048] !! 1%nat = Some (case_of_size 2048)
  /\ exists label,
       label_of_size (data_size_kb (case_of_size 2048)) = inr label
       /\ matrix_column 2 (matrix_of [case_of_size 1; case_of_size 2048])
          = map Some (label :: metric_cells (case_of_size 2048)).
Proof.
  assert (Hcsv : csv_data [case_of_size 1; case_of_size 2048]
                 = inr (matrix_of [case_of_size 1; case_of_size 2048]))
    by (vm_compute; reflexivity).
  assert (Hr : [case_of_size 1; case_of_size 2048] !! 1%nat = Some (case_of_size 2048))
    by reflexivity.
  split; [exact Hcsv|]. split; [exact Hr|].
  exact (csv_data_column [case_of_size 1; case_of_size 2048]
           (matrix_of [case_of_size 1; case_of_size 2048]) 1 (case_of_size 2048)
           Hcsv Hr).
Defined.

(** The column of the result of 2 MB: its label and its seven cells. *)
Lemma column_of_two_megabytes :
  matrix_column 2 (matrix_of [case_of_size 1; case_of_size 2048])
  = map Some ["2MB"; "89ms"; "0.000ms"; "0.00%"; "0KB"; "0.000ms"; "0.00%"; "0KB"].
Proof. vm_compute. reflexivity. Qed.

(** ** The export *)

(** The export of one result on the idle machine, whose disk accepts the
    write. *)
Lemma export_writes_then_renders_witness :
  [case_of_size 1] <> []
  /\ csv_data [case_of_size 1] = inr (matrix_of [case_of_size 1])
  /\ env_write_error idle_env (write_attempts fresh_world) = None
  /\ exists w',
       export_results_to_csv idle_env [case_of_size 1] "abe_performance_results.csv"
                             fresh_world = (inr tt, w')
       /\ disk w' = (csv_path_of "abe_performance_results.csv",
                     matrix_of [case_of_size 1]) :: disk fresh_world
       /\ console w' = console fresh_world
                       ++ export_lines "abe_performance_results.csv"
                                       (matrix_of [case_of_size 1])
       /\ write_attempts w' = S (write_attempts fresh_world).
Proof.
  assert (Hne : [case_of_size 1] <> []) by discriminate.
  assert (Hcsv : csv_data [case_of_size 1] = inr (matrix_of [case_of_size 1]))
    by (vm_compute; reflexivity).
  assert (Hwrite : env_write_error idle_env (write_attempts fresh_world) = None)
    by reflexivity.
  split; [exact Hne|]. split; [exact Hcsv|]. split; [exact Hwrite|].
  exact (export_writes_then_renders idle_env [case_of_size 1]
           "abe_performance_results.csv" (matrix_of [case_of_size 1]) fresh_world
           Hne Hcsv Hwrite).
Defined.


(** ** The case *)

(** The case on the idle machine: five readings of the process-level
    counter and four of each other kind. *)
Lemma case_query_footprint_witness :
  run_performance_test idle_env (toy_capability 0 1) tt tt 1 fresh_world
  = (inr (result_of idle_run), snd idle_run)
  /\ process_cpu_queries (snd idle_run) = (process_cpu_queries fresh_world + 5)%nat
  /\ system_cpu_queries (snd idle_run) = (system_cpu_queries fresh_world + 4)%nat
  /\ rss_queries (snd idle_run) = (rss_queries fresh_world + 4)%nat
  /\ clock_queries (snd idle_run) = (clock_queries fresh_world + 4)%nat.
Proof.
  assert (Hrun : run_performance_test idle_env (toy_capability 0 1) tt tt 1 fresh_world
                 = (inr (result_of idle_run), snd idle_run))
    by (vm_compute; reflexivity).
  split; [exact Hrun|].
  exact (case_query_footprint idle_env (toy_capability 0 1) tt tt 1 fresh_world
           (snd idle_run) (result_of idle_run) Hrun).
Defined.

(** The CPU samples of the case on the idle machine, whose process-level
    counter reads zero: both come from the system-wide readings, and both
    lie within [0, 100]. *)
Lemma case_cpu_samples_witness :
  run_performance_test idle_env (toy_capability 0 1) tt tt 1 fresh_world
  = (inr (result_of idle_run), snd idle_run)
  /\ fle f0 (cpu_percent (encryption (result_of idle_run))) = true
  /\ fle f0 (cpu_percent (decryption (result_of idle_run))) = true
  /\ fle (cpu_percent (encryption (result_of idle_run))) f100 = true
  /\ fle (cpu_percent (decryption (result_of idle_run))) f100 = true.
Proof.
  assert (Hrun : run_performance_test idle_env (toy_capability 0 1) tt tt 1 fresh_world
                 = (inr (result_of idle_run), snd idle_run))
    by (vm_compute; reflexivity).
  split; [exact Hrun|].
  destruct (case_cpu_samples idle_env (toy_capability 0 1) tt tt 1 fresh_world
              (snd idle_run) (result_of idle_run) Hrun)
    as (_ & _ & Henc & Hdec & Henc100 & Hdec100).
  split; [exact Henc|]. split; [exact Hdec|].
  split; [apply Henc100|apply Hdec100]; reflexivity.
Defined.

(** ** The run *)

(** The scheme whose [setup] raises: the run ends there. *)
Lemma setup_failure_is_fatal_witness :
  cap_setup locked_capability (cap_state fresh_world)
  = (inl (Exception "RuntimeError" "pairing group not available"), O)
  /\ exists w',
       run_performance_scenarios_on idle_env locked_capability [1; 2048] fresh_world
       = (inl (Exception "RuntimeError" "pairing group not available"), w')
       /\ cap_log w' = cap_log fresh_world
                       ++ [EvSetup (inl (Exception "RuntimeError"
                                                   "pairing group not available"))]
       /\ console w' = console fresh_world
       /\ disk w' = disk fresh_world
       /\ write_attempts w' = write_attempts fresh_world
       /\ process_cpu_queries w' = process_cpu_queries fresh_world
       /\ clock_queries w' = clock_queries fresh_world.
Proof.
  assert (Hsetup : cap_setup locked_capability (cap_state fresh_world)
                   = (inl (Exception "RuntimeError" "pairing group not available"), O))
    by reflexivity.
  split; [exact Hsetup|].
  exact (setup_failure_is_fatal idle_env locked_capability [1; 2048] fresh_world
           (Exception "RuntimeError" "pairing group not available") O Hsetup).
Defined.


(** What that run has printed between the banner and the export. *)
Lemma suite_lines_of_mixed_run :
  suite_lines [1; 2048]
    (case_outcomes idle_env first_case_fails tt tt [1; 2048] after_banner)
  = ["Testing 1KB data...";
     "Error testing 1KB: policy could not be parsed";
     "Testing 2048KB data...";
     encryption_line 2048
       (result_of (run_performance_test idle_env first_case_fails tt tt 2048
                     (snd (benchmark_body idle_env first_case_fails tt tt 1 []
                             after_banner))));
     decryption_line
       (result_of (run_performance_test idle_env first_case_fails tt tt 2048
                     (snd (benchmark_body idle_env first_case_fails tt tt 1 []
                             after_banner))));
     str_repeat "-" 80].
Proof. vm_compute. reflexivity. Qed.

(** The calls of that run: one [setup], then those of the two cases. *)
Lemma run_calls_setup_once_witness :
  cap_setup first_case_fails (cap_state fresh_world) = (inr (tt, tt), O)
  /\ exists calls,
       cap_log (snd (run_performance_scenarios_on idle_env first_case_fails [1; 2048]
                       fresh_world))
       = cap_log fresh_world ++ EvSetup (inr (tt, tt)) :: calls
       /\ Forall (case_call tt tt) calls
       /\ (length calls <= 4 * length [1; 2048])%nat.
Proof.
  assert (Hsetup : cap_setup first_case_fails (cap_state fresh_world)
                   = (inr (tt, tt), O)) by reflexivity.
  split; [exact Hsetup|].
  exact (run_calls_setup_once idle_env first_case_fails [1; 2048] fresh_world
           tt tt O Hsetup).
Defined.

(** The run over the ten sizes, on a full disk and with a first case
    that raises: it returns normally. *)
Lemma run_performance_scenarios_returns_witness :
  cap_setup first_case_fails (cap_state fresh_world) = (inr (tt, tt), O)
  /\ fst (run_performance_scenarios full_disk_env first_case_fails fresh_world) = inr tt.
Proof.
  assert (Hsetup : cap_setup first_case_fails (cap_state fresh_world)
                   = (inr (tt, tt), O)) by reflexivity.
  split; [exact Hsetup|].
  exact (run_performance_scenarios_returns full_disk_env first_case_fails fresh_world
           tt tt O Hsetup).
Defined.

(** ** The entry point *)

(** [main] called from another module, with the toy scheme: the round
    trip is made, and then [NameError]. *)
Lemma main_without_debug_witness :
  self_test (toy_capability 0 1) fresh_world = (inr (0, 0), snd round_trip)
  /\ main idle_env (toy_capability 0 1) None fresh_world
     = (inl (Exception "NameError" "name 'debug' is not defined"), snd round_trip)
  /\ console (snd round_trip) = console fresh_world
  /\ write_attempts (snd round_trip) = write_attempts fresh_world
  /\ process_cpu_queries (snd round_trip) = process_cpu_queries fresh_world.
Proof.
  assert (Htest : self_test (toy_capability 0 1) fresh_world
                  = (inr (0, 0), snd round_trip)) by (vm_compute; reflexivity).
  split; [exact Htest|].
  exact (main_without_debug idle_env (toy_capability 0 1) fresh_world (snd round_trip)
           0 0 Htest).
Defined.

(** [main] with the scheme whose [setup] raises. *)
Lemma main_round_trip_failure_witness :
  self_test locked_capability fresh_world
  = (inl (Exception "RuntimeError" "pairing group not available"),
     snd locked_round_trip)
  /\ main idle_env locked_capability (Some true) fresh_world
     = (inl (Exception "RuntimeError" "pairing group not available"),
        snd locked_round_trip)
  /\ console (snd locked_round_trip) = console fresh_world
  /\ write_attempts (snd locked_round_trip) = write_attempts fresh_world
  /\ process_cpu_queries (snd locked_round_trip) = process_cpu_queries fresh_world.
Proof.
  assert (Htest : self_test locked_capability fresh_world
                  = (inl (Exception "RuntimeError" "pairing group not available"),
                     snd locked_round_trip)) by (vm_compute; reflexivity).
  split; [exact Htest|].
  exact (main_round_trip_failure idle_env locked_capability (Some true) fresh_world
           (snd locked_round_trip)
           (Exception "RuntimeError" "pairing group not available") Htest).
Defined.

(** [main] run as a script, with the toy scheme: it returns, and its
    last lines are the trailer. *)
Lemma main_returns_witness :
  self_test (toy_capability 0 1) fresh_world = (inr (0, 0), snd round_trip)
  /\ cap_setup (toy_capability 0 1) (cap_state (snd round_trip))
     = (inr (tt, tt), cap_state (snd round_trip))
  /\ exists w',
       main idle_env (toy_capability 0 1) (Some true) fresh_world = (inr tt, w')
       /\ console w'
          = console (snd (run_performance_scenarios idle_env (toy_capability 0 1)
                            (printed (verdict_lines true (bool_decide (0 = 0))
                                      ++ [newline +:+ "Starting performance testing scenarios..."])
                                     (snd round_trip))))
            ++ trailer_lines.
Proof.
  assert (Htest : self_test (toy_capability 0 1) fresh_world
                  = (inr (0, 0), snd round_trip)) by (vm_compute; reflexivity).
  assert (Hsetup : cap_setup (toy_capability 0 1) (cap_state (snd round_trip))
                   = (inr (tt, tt), cap_state (snd round_trip))) by reflexivity.
  split; [exact Htest|]. split; [exact Hsetup|].
  destruct (main_returns idle_env (toy_capability 0 1) true fresh_world (snd round_trip)
              0 0 tt tt (cap_state (snd round_trip)) Htest Hsetup)
    as (w' & Hmain & Hconsole & _).
  exists w'. split; [exact Hmain|exact Hconsole].
Defined.

(** The verdict of the round trip with the matching key and with a key
    that decrypts to another value. *)
Lemma main_verdicts :
  (console (snd (main idle_env (toy_capability 0 1) (Some true) fresh_world))) !! 0%nat
  = Some "Successful decryption."%string
  /\ (console (snd (main idle_env (toy_capability 0 0) (Some true) fresh_world))) !! 0%nat
     = Some "Decryption failed."%string.
Proof. split; vm_compute; reflexivity. Qed.
